(** * joy-caption.py: the caption worker of LLMOCR

    A shallow embedding of [src/joy-caption.py]: the request orchestrator
    [LLMProcessor], the sequential worker [ProcessingThread] and the part
    of [MainWindow] that builds a run.  The program is effectful; it is
    modelled in a state-and-exception monad over

    - the outside world (inference server, image library, disk faults,
      clock), reached only through the operations of [Environment];
    - the file system, a finite map from path to the text a file holds
      (the [str] written to it, before encoding and newline
      translation);
    - the trace of observable events in program order: lines printed,
      signals emitted, collaborator calls and file operations.

    Conventions: a Python [str] is a [string]; one [ascii] stands for one
    code point in U+0000..U+00FF.  A Python [int] is a [Z].  A float
    literal is the decimal it is written as, a [Q].  Exceptions are
    instances of [Exception] (what [except Exception] catches); an
    exception that is no [Exception], such as [SystemExit], is not
    represented.  Two spellings of a path are two files. *)

From stdpp Require Import gmap strings list.
From Stdlib Require Import ZArith QArith Ascii String.
From Stdlib Require DecimalString DecimalNat.
From Stdlib Require PrimFloat FloatOps SpecFloat Uint63.

Local Open Scope Z_scope.
Local Open Scope string_scope.

(** ** Python strings *)

Module Str.

(** [s[:n]] for [0 <= n] *)
Fixpoint take (n : nat) (s : string) : string :=
  match n, s with
  | S n', String c s' => String c (take n' s')
  | _, _ => ""
  end.

(** [s[n:]] for [0 <= n] *)
Fixpoint drop (n : nat) (s : string) : string :=
  match n, s with
  | S n', String _ s' => drop n' s'
  | _, _ => s
  end.

(** [s[i:i+1]] for [0 <= i] *)
Definition slice1 (i : nat) (s : string) : string := take 1 (drop i s).

(** [s.rfind(c)] for a one-character [c]: the highest index holding
    [c], or [-1].  [rfind_from i last s] scans [s], whose first
    character has index [i], remembering the last hit. *)
Fixpoint rfind_from (c : ascii) (i last : Z) (s : string) : Z :=
  match s with
  | "" => last
  | String a s' =>
      rfind_from c (i + 1) (if decide (a = c) then i else last) s'
  end.

Definition rfind (c : ascii) (s : string) : Z := rfind_from c 0 (-1) s.

(** Characters for which [str.isdigit] holds, in U+0000..U+00FF: the
    decimal digits and the superscripts U+00B2, U+00B3, U+00B9
    (Numeric_Type=Digit). *)
Definition is_decimal_char (c : ascii) : bool :=
  let n := nat_of_ascii c in (48 <=? n)%nat && (n <=? 57)%nat.

Definition is_digit_char (c : ascii) : bool :=
  let n := nat_of_ascii c in
  is_decimal_char c || (n =? 178)%nat || (n =? 179)%nat || (n =? 185)%nat.

Fixpoint all_chars (f : ascii -> bool) (s : string) : bool :=
  match s with
  | "" => true
  | String c s' => f c && all_chars f s'
  end.

(** [s.isdigit()]: at least one character and all of them digits. *)
Definition isdigit (s : string) : bool :=
  match s with
  | "" => false
  | _ => all_chars is_digit_char s
  end.

(** Value of a run of decimal digits read left to right from [acc]. *)
Fixpoint decimal_value (acc : Z) (s : string) : Z :=
  match s with
  | "" => acc
  | String c s' =>
      decimal_value (10 * acc + (Z.of_nat (nat_of_ascii c) - 48)) s'
  end.

(** [c in s] *)
Fixpoint contains (c : ascii) (s : string) : bool :=
  match s with
  | "" => false
  | String a s' => if decide (a = c) then true else contains c s'
  end.

(** The highest index of [s] holding [c], if there is one. *)
Fixpoint last_index (c : ascii) (s : string) : option nat :=
  match s with
  | "" => None
  | String a s' =>
      match last_index c s' with
      | Some j => Some (S j)
      | None => if decide (a = c) then Some O else None
      end
  end.

End Str.

(** ** Exceptions and results *)

Record PyException := { exc_class : string; exc_str : string }.

Inductive Result (A : Type) : Type :=
| Ok (a : A)
| Raised (e : PyException).
Arguments Ok {A} a.
Arguments Raised {A} e.

(** [str(n)] for an [int] that is not negative. *)
Definition str_nat (n : nat) : string :=
  DecimalString.NilZero.string_of_uint (Nat.to_uint n).

(** The number of decimal digits [s] starts with. *)
Fixpoint leading_digits (s : string) : nat :=
  match s with
  | String c s' => if Str.is_decimal_char c then S (leading_digits s') else O
  | "" => O
  end.

(** The length check of [int] on a [str]: [limit] is
    [sys.get_int_max_str_digits()], 0 for no limit (4300 unless the
    interpreter is told otherwise).  A run of more than 640 digits that
    is longer than the limit is refused. *)
Definition exceeds_limit (limit digits : nat) : bool :=
  (640 <? digits)%nat && (0 <? limit)%nat && (limit <? digits)%nat.

(** [int(s)] on a string for which [s.isdigit()] holds, the only strings
    the program passes to it.  The digits the string starts with are
    counted first, and too many of them raise [ValueError]; then the
    value is returned when every character is a decimal digit, and
    [ValueError] is raised otherwise. *)
Definition int_ (limit : nat) (s : string) : Result Z :=
  if exceeds_limit limit (leading_digits s) then
    Raised {| exc_class := "ValueError";
              exc_str := "Exceeds the limit (" ++ str_nat limit
                         ++ " digits) for integer string conversion: value has "
                         ++ str_nat (leading_digits s)
                         ++ " digits; use sys.set_int_max_str_digits() "
                         ++ "to increase the limit" |}
  else if Str.all_chars Str.is_decimal_char s && negb (String.eqb s "")
  then Ok (Str.decimal_value 0 s)
  else Raised {| exc_class := "ValueError";
                 exc_str := "invalid literal for int() with base 10: '"
                            ++ s ++ "'" |}.

(** ** os.path.splitext *)

(** The two flavours of [os.path]: [posixpath] and [ntpath]. *)
Inductive Platform := Posix | NT.

Definition sep (pf : Platform) : ascii :=
  match pf with Posix => "/"%char | NT => "\"%char end.

Definition altsep (pf : Platform) : option ascii :=
  match pf with Posix => None | NT => Some "/"%char end.

Definition extsep : ascii := "."%char.

(** The [while filenameIndex < dotIndex] loop of [genericpath._splitext];
    [n] is the number of iterations left, [dotIndex - filenameIndex].
    [Some] is the [return] inside the loop, [None] is falling out. *)
Fixpoint splitext_skip_dots (n : nat) (p : string) (filenameIndex dotIndex : nat)
  : option (string * string) :=
  match n with
  | O => None
  | S n' =>
      if negb (String.eqb (Str.slice1 filenameIndex p) (String extsep ""))
      then Some (Str.take dotIndex p, Str.drop dotIndex p)
      else splitext_skip_dots n' p (S filenameIndex) dotIndex
  end.

(** [genericpath._splitext(p, sep, altsep, extsep)] *)
Definition _splitext (p : string) (sep : ascii) (altsep : option ascii)
    (extsep : ascii) : string * string :=
  let sepIndex := Str.rfind sep p in
  let sepIndex :=
    match altsep with
    | Some a => Z.max sepIndex (Str.rfind a p)
    | None => sepIndex
    end in
  let dotIndex := Str.rfind extsep p in
  let fallthrough := (p, Str.take 0 p) in
  if (dotIndex >? sepIndex)%Z then
    let filenameIndex := sepIndex + 1 in
    match splitext_skip_dots (Z.to_nat (dotIndex - filenameIndex)) p
            (Z.to_nat filenameIndex) (Z.to_nat dotIndex) with
    | Some r => r
    | None => fallthrough
    end
  else fallthrough.

Definition splitext (pf : Platform) (p : string) : string * string :=
  _splitext p (sep pf) (altsep pf) extsep.

(** The value of [sepIndex] in [_splitext] when it is called through
    [splitext]: the index of the last separator of either kind. *)
Definition sep_index (pf : Platform) (p : string) : Z :=
  match altsep pf with
  | Some a => Z.max (Str.rfind (sep pf) p) (Str.rfind a p)
  | None => Str.rfind (sep pf) p
  end.

(** The last component of a path: what follows its last separator. *)
Definition file_name (pf : Platform) (p : string) : string :=
  Str.drop (Z.to_nat (sep_index pf p + 1)) p.

Definition dots_only (s : string) : bool :=
  Str.all_chars (fun c => bool_decide (c = extsep)) s.

(** Every character of [s] is the digit zero. *)
Definition zeros_only (s : string) : bool :=
  Str.all_chars (fun c => bool_decide (c = "0"%char)) s.

(** The last component of [p] has a character that is not a dot. *)
Definition has_name (pf : Platform) (p : string) : bool :=
  negb (dots_only (file_name pf p)).

(** ** Collaborators and the outside world *)

(** [koboldapi.KoboldAPICore] and [koboldapi.ImageProcessor] objects,
    represented by the arguments they are constructed with. *)
Record KoboldAPICore := { api_url : string }.
Record ImageProcessor := { max_dimension : Z }.

(** Keyword arguments of [KoboldAPICore.wrap_and_generate]. *)
Record GenerateArgs (Image : Type) := {
  arg_instruction : string;
  arg_system_instruction : string;
  arg_images : list Image;
  arg_max_length : Z;
  arg_top_p : Q;
  arg_top_k : Z;
  arg_temp : Q;
  arg_rep_pen : Q;
  arg_min_p : Q
}.
Arguments arg_instruction {Image} _.
Arguments arg_system_instruction {Image} _.
Arguments arg_images {Image} _.
Arguments arg_max_length {Image} _.
Arguments arg_top_p {Image} _.
Arguments arg_top_k {Image} _.
Arguments arg_temp {Image} _.
Arguments arg_rep_pen {Image} _.
Arguments arg_min_p {Image} _.

(** Everything the program does not define itself.  Each operation reads
    and advances the world; the fallible ones may raise.
    [os_write] reports, on a fault, how many characters reached the
    file before the exception.  [KoboldAPICore_new] is what constructing
    a [KoboldAPICore] does besides keeping its argument: it gets in
    touch with the server and raises when that fails.
    [int_max_str_digits] is the interpreter's limit for [int]. *)
Class Environment := {
  World : Type;
  Image : Type;
  Timestamp : Type;
  os_path : Platform;
  int_max_str_digits : nat;
  time_time : World -> Timestamp * World;
  KoboldAPICore_new : string -> World -> option PyException * World;
  process_image :
    ImageProcessor -> string -> World -> Result (Image * string) * World;
  wrap_and_generate :
    KoboldAPICore -> GenerateArgs Image -> World ->
    Result (option string) * World;
  os_open_w : string -> World -> option PyException * World;
  os_write : string -> string -> World -> option (PyException * nat) * World
}.

(** Signals of [ProcessingThread]. *)
Inductive Signal :=
| progress (current total : Z)
| finished
| error (msg : string)
| result_ready (text : string).

Section Program.
Context {env : Environment}.

(** ** Observable events and program state *)

Inductive Event :=
| Print (line : string)
| Emit (sig : Signal)
| SetEnabled (widget : string) (enabled : bool)
| ThreadStart
| CallProcessImage (ip : ImageProcessor) (file_path : string)
| CallGenerate (core : KoboldAPICore) (args : GenerateArgs Image)
| FileOpen (path : string)
| FileWrite (path text : string).

Record State := {
  world : World;
  fs : gmap string string;
  trace : list Event
}.

(** ** The state-and-exception monad *)

Definition M (A : Type) : Type := State -> Result A * State.

Definition ret {A} (a : A) : M A := fun s => (Ok a, s).

Definition bind {A B} (c : M A) (k : A -> M B) : M B :=
  fun s =>
    match c s with
    | (Ok a, s') => k a s'
    | (Raised e, s') => (Raised e, s')
    end.

Definition raise {A} (e : PyException) : M A := fun s => (Raised e, s).

(** An expression that returns or raises without touching the state. *)
Definition eval {A} (r : Result A) : M A := fun s => (r, s).

(** [try: c  except Exception as e: h e].  What [c] did before it
    raised stays done. *)
Definition try_except {A} (c : M A) (h : PyException -> M A) : M A :=
  fun s =>
    match c s with
    | (Ok a, s') => (Ok a, s')
    | (Raised e, s') => h e s'
    end.

Definition log (ev : Event) : M unit :=
  fun s => (Ok tt, {| world := world s; fs := fs s;
                      trace := trace s ++ [ev] |}).

(** A call into the environment that cannot raise. *)
Definition ask {A} (f : World -> A * World) : M A :=
  fun s =>
    let '(a, w) := f (world s) in
    (Ok a, {| world := w; fs := fs s; trace := trace s |}).

(** A call into the environment that may raise. *)
Definition call {A} (f : World -> Result A * World) : M A :=
  fun s =>
    let '(r, w) := f (world s) in
    (r, {| world := w; fs := fs s; trace := trace s |}).

Definition set_file (path content : string) : M unit :=
  fun s => (Ok tt, {| world := world s; fs := <[path := content]> (fs s);
                      trace := trace s |}).

Definition get_file (path : string) : M string :=
  fun s => (Ok (default "" (fs s !! path)), s).

End Program.

Declare Scope py_scope.
Delimit Scope py_scope with py.
Notation "x <- c ;; k" := (bind c (fun x => k))
  (at level 100, c at next level, right associativity) : py_scope.
Notation "c ;; k" := (bind c (fun _ => k))
  (at level 100, right associativity) : py_scope.

Section Program.
Context {env : Environment}.
Local Open Scope py_scope.

Definition print (line : string) : M unit := log (Print line).
Definition emit (sig : Signal) : M unit := log (Emit sig).

(** [open(path, "w", encoding="utf-8")]: on success the file exists
    and is empty. *)
Definition open_w (path : string) : M string :=
  log (FileOpen path) ;;
  fault <- ask (os_open_w path) ;;
  match fault with
  | Some e => raise e
  | None => set_file path "" ;; ret path
  end.

(** [output_file.write(text)], together with the flush when the [with]
    block closes the file. *)
Definition file_write (output_file text : string) : M unit :=
  log (FileWrite output_file text) ;;
  fault <- ask (os_write output_file text) ;;
  old <- get_file output_file ;;
  match fault with
  | Some (e, n) => set_file output_file (old ++ Str.take n text) ;; raise e
  | None => set_file output_file (old ++ text)
  end.

(** [str(x)] inside an f-string, for an [Optional[str]]. *)
Definition format_optional (x : option string) : string :=
  match x with Some t => t | None => "None" end.

(** [if x:] for an [Optional[str]]: [None] and [""] are false; in the
    true branch [x] is the string returned here. *)
Definition truthy (x : option string) : option string :=
  match x with
  | Some t => if String.eqb t "" then None else Some t
  | None => None
  end.

Definition newline : string := String (ascii_of_nat 10) "".

(** ** class LLMProcessor *)

Record LLMProcessor := {
  instruction : string;
  system_instruction : string;
  max_length : Z;
  core : KoboldAPICore;
  image_processor : ImageProcessor
}.

(** [KoboldAPICore(api_url=api_url)] *)
Definition KoboldAPICore_init (api_url : string) : M KoboldAPICore :=
  fault <- ask (KoboldAPICore_new api_url) ;;
  match fault with
  | Some e => raise e
  | None => ret {| api_url := api_url |}
  end.

Definition LLMProcessor_init (api_url system_instruction instruction : string)
    (max_length : Z) : M LLMProcessor :=
  core <- KoboldAPICore_init api_url ;;
  let self := {| instruction := instruction;
                 system_instruction := system_instruction;
                 max_length := max_length;
                 core := core;
                 image_processor := {| max_dimension := 384 |} |} in
  print "-----------------------------------------------------------------" ;;
  print "*** Processing... " ;;
  ret self.

(** The keyword arguments [process_file] passes to
    [wrap_and_generate]. *)
Definition generate_args (self : LLMProcessor) (encoded_image : Image)
  : GenerateArgs Image :=
  {| arg_instruction := instruction self;
     arg_system_instruction := system_instruction self;
     arg_images := [encoded_image];
     arg_max_length := max_length self;
     arg_top_p := 0.95;
     arg_top_k := 0;
     arg_temp := 0.6;
     arg_rep_pen := 1.1;
     arg_min_p := 0.1 |}.

(** A call of the image library: the trace entry is written by the
    call itself, with the arguments of the call. *)
Definition ImageProcessor_process_image (ip : ImageProcessor)
    (file_path : string) : M (Image * string) :=
  log (CallProcessImage ip file_path) ;;
  call (process_image ip file_path).

(** A request to the server, with its trace entry. *)
Definition KoboldAPICore_wrap_and_generate (core : KoboldAPICore)
    (args : GenerateArgs Image) : M (option string) :=
  log (CallGenerate core args) ;;
  call (wrap_and_generate core args).

Definition process_file (self : LLMProcessor) (file_path : string)
  : M (option string * string) :=
  r <- ImageProcessor_process_image (image_processor self) file_path ;;
  let '(encoded_image, output_path) := r in
  result <- KoboldAPICore_wrap_and_generate (core self)
              (generate_args self encoded_image) ;;
  print "*** Output: " ;;
  print (newline ++ format_optional result ++ newline) ;;
  ret (result, output_path).

(** The value [save_result] gives its local variable
    [txt_output_path]. *)
Definition txt_output_path (output_path : string) : string :=
  fst (splitext os_path output_path) ++ ".txt".

Definition save_result (self : LLMProcessor) (result output_path : string)
  : M bool :=
  let txt_output_path := txt_output_path output_path in
  try_except
    (output_file <- open_w txt_output_path ;;
     file_write output_file result ;;
     ret true)
    (fun e =>
       print ("Error saving to " ++ txt_output_path ++ ": " ++ exc_str e) ;;
       ret false).

(** ** class ProcessingThread *)

Record ProcessingThread := {
  processor : LLMProcessor;
  files : list string;
  start_time : option Timestamp
}.

Definition ProcessingThread_init (processor : LLMProcessor)
    (files : list string) : ProcessingThread :=
  {| processor := processor; files := files; start_time := None |}.

(** [for i, x in enumerate(l): body], counting from [i]. *)
Fixpoint for_enumerate {A} (i : Z) (l : list A) (body : Z -> A -> M unit)
  : M unit :=
  match l with
  | [] => ret tt
  | x :: l' => body i x ;; for_enumerate (i + 1) l' body
  end.

(** The body of the loop in [run]. *)
Definition run_body (self : ProcessingThread) (i : Z) (file_path : string)
  : M unit :=
  r <- process_file (processor self) file_path ;;
  let '(result, output_path) := r in
  match truthy result with
  | Some result =>
      save_result (processor self) result output_path ;;
      emit (result_ready result)
  | None => ret tt
  end ;;
  emit (progress (i + 1) (Z.of_nat (List.length (files self)))).

(** [run].  Reading the clock cannot raise, so the assignment to
    [start_time] is written before the [try]; the thread object with
    the attribute set is the value returned. *)
Definition run (self : ProcessingThread) : M ProcessingThread :=
  t <- ask time_time ;;
  let self := {| processor := processor self; files := files self;
                 start_time := Some t |} in
  try_except
    (for_enumerate 0 (files self) (run_body self) ;;
     emit finished)
    (fun e => emit (error (exc_str e))) ;;
  ret self.

(** ** class MainWindow: what [process_files] reads *)

Record MainWindow := {
  api_url_text : string;
  system_instruction_text : string;
  instruction_combo_currentText : string;
  max_length_input_text : string;
  selected_files : list string
}.

(** [int(t) if t.isdigit() else 256] *)
Definition parse_max_length (t : string) : Result Z :=
  if Str.isdigit t then int_ int_max_str_digits t else Ok 256.

(** [process_files]: [None] is the early [return]; otherwise the
    worker that was started.  Connecting the signals to the slots has
    no effect of its own and is left out. *)
Definition process_files (self : MainWindow) : M (option ProcessingThread) :=
  match selected_files self with
  | [] => ret None
  | _ =>
      log (SetEnabled "process_button" false) ;;
      log (SetEnabled "file_button" false) ;;
      n <- eval (parse_max_length (max_length_input_text self)) ;;
      processor <- LLMProcessor_init (api_url_text self)
                     (system_instruction_text self)
                     (instruction_combo_currentText self) n ;;
      let thread := ProcessingThread_init processor (selected_files self) in
      log ThreadStart ;;
      ret (Some thread)
  end.

End Program.

(** ** Reading a trace *)

Section Observations.
Context {env : Environment}.

(** The signals emitted, in order. *)
Definition signals (evs : list Event) : list Signal :=
  omap (fun ev => match ev with Emit sig => Some sig | _ => None end) evs.

(** The [(current, total)] pairs of the progress notifications. *)
Definition progress_of (evs : list Event) : list (Z * Z) :=
  omap (fun ev => match ev with
                  | Emit (progress c t) => Some (c, t)
                  | _ => None
                  end) evs.

(** The messages of the error notifications. *)
Definition errors_of (evs : list Event) : list string :=
  omap (fun ev => match ev with Emit (error m) => Some m | _ => None end) evs.

(** The texts handed to the result observers. *)
Definition results_of (evs : list Event) : list string :=
  omap (fun ev => match ev with
                  | Emit (result_ready t) => Some t
                  | _ => None
                  end) evs.

(** One entry per completion notification. *)
Definition completions_of (evs : list Event) : list unit :=
  omap (fun ev => match ev with Emit finished => Some tt | _ => None end) evs.

(** The files on which [process_file] was entered: it starts by calling
    the image library on its argument. *)
Definition processed (evs : list Event) : list string :=
  omap (fun ev => match ev with
                  | CallProcessImage _ f => Some f
                  | _ => None
                  end) evs.

(** The requests sent to the inference server. *)
Definition generate_calls (evs : list Event)
  : list (KoboldAPICore * GenerateArgs Image) :=
  omap (fun ev => match ev with
                  | CallGenerate c a => Some (c, a)
                  | _ => None
                  end) evs.

(** The paths of the files opened or written. *)
Definition file_ops (evs : list Event) : list string :=
  omap (fun ev => match ev with
                  | FileOpen p | FileWrite p _ => Some p
                  | _ => None
                  end) evs.

(** [s] with the world replaced and events appended to the trace. *)
Definition with_trace (s : State) (w : World) (evs : list Event) : State :=
  {| world := w; fs := fs s; trace := trace s ++ evs |}.

(** [(first + 1, total), ..., (first + n, total)] *)
Definition progress_run (first : Z) (n : nat) (total : Z) : list (Z * Z) :=
  map (fun k => (first + Z.of_nat k, total)) (seq 1 n).

(** The state in which a [for_enumerate] loop enters its [k]-th
    iteration (counting from 0); [None] when the loop does not get
    there, because the list is shorter or an earlier iteration raised. *)
Fixpoint loop_state {A} (body : Z -> A -> M unit) (i : Z) (l : list A)
    (k : nat) (s : State) : option State :=
  match l, k with
  | [], _ => None
  | _ :: _, O => Some s
  | x :: l', S k' =>
      match body i x s with
      | (Ok _, s') => loop_state body (i + 1) l' k' s'
      | (Raised _, _) => None
      end
  end.

(** The state in which [run], started in [s], calls [process_file] on
    the file at position [k]. *)
Definition arrives (self : ProcessingThread) (k : nat) (s : State)
  : option State :=
  loop_state (run_body self) 0 (files self) k (snd (ask time_time s)).

(** In the run started in [s], [process_file] raises [e] on the file
    at position [k]. *)
Definition raises_at (self : ProcessingThread) (s : State) (k : nat)
    (e : PyException) : Prop :=
  exists f s_k,
    files self !! k = Some f /\ arrives self k s = Some s_k /\
    fst (process_file (processor self) f s_k) = Raised e.

(** In the run started in [s], every call of [process_file] returns. *)
Definition all_succeed (self : ProcessingThread) (s : State) : Prop :=
  forall k f s_k,
    files self !! k = Some f -> arrives self k s = Some s_k ->
    exists r, fst (process_file (processor self) f s_k) = Ok r.

(** Opening [path] for writing and writing [text] meets a fault. *)
Definition write_fails (path text : string) (w : World) : bool :=
  match os_open_w path w with
  | (Some _, _) => true
  | (None, w1) =>
      match os_write path text w1 with
      | (Some _, _) => true
      | (None, _) => false
      end
  end.

End Observations.

(** ** More ways to read a run *)

Section RunObservations.
Context {env : Environment}.

(** The events [run] adds to the trace. *)
Definition run_events (self : ProcessingThread) (s : State) : list Event :=
  drop (List.length (trace s)) (trace (snd (run self s))).

(** The paths of the files opened. *)
Definition opened (evs : list Event) : list string :=
  omap (fun ev => match ev with FileOpen p => Some p | _ => None end) evs.

(** [s.endswith(suffix)] *)
Definition ends_with (suffix s : string) : bool :=
  (String.length suffix <=? String.length s)%nat &&
  String.eqb (Str.drop (String.length s - String.length suffix) s) suffix.





(** From [s] to [s'] the trace grew by events that satisfy [P]. *)
Definition adds (P : list Event -> Prop) (s s' : State) : Prop :=
  exists evs, trace s' = (trace s ++ evs)%list /\ P evs.

(** The lines printed. *)
Definition printed (evs : list Event) : list string :=
  omap (fun ev => match ev with Print line => Some line | _ => None end) evs.

End RunObservations.

(** Every character of [s] is below U+0080. *)
Definition is_ascii (s : string) : bool :=
  Str.all_chars (fun c => (nat_of_ascii c <? 128)%nat) s.

(** [e] can stand after the dot of an extension: it has no dot and no
    separator. *)
Definition plain_ext (pf : Platform) (e : string) : bool :=
  negb (Str.contains extsep e) && negb (Str.contains (sep pf) e) &&
  match altsep pf with
  | Some a => negb (Str.contains a e)
  | None => true
  end.

(** ** class MainWindow: the widgets and the slots *)

(** What the window uses and the program does not define: the file
    dialog, the clipboard, float arithmetic and formatting.
    [percent c t] is [int((c / t) * 100)] for [t] other than 0,
    [started t] the truth value of a start time, [elapsed_2f now t] the
    text of [f"{now - t:.2f}"].  [no_start_time] is the text of the
    [AttributeError] that [self.thread.start_time] raises while
    [self.thread] is still the method inherited from [QObject]. *)
Class Desktop {env : Environment} := {
  getOpenFileNames : World -> list string * World;
  pyperclip_copy : string -> World -> option PyException * World;
  percent : Z -> Z -> Z;
  started : Timestamp -> bool;
  elapsed_2f : Timestamp -> Timestamp -> string;
  no_start_time : string
}.

Section Widgets.
Context {env : Environment} {desk : Desktop}.

(** The state of the window: the fields [process_files] reads, the
    label, the value of the progress bar (range 0..100), whether the two
    buttons are enabled, and the worker kept in [self.thread]: [None]
    until [process_files] assigns one. *)
Record Window := {
  form : MainWindow;
  files_label : string;
  progress_bar : Z;
  process_button : bool;
  file_button : bool;
  thread : option ProcessingThread
}.

(** Slots act on the window and on the program state; what they did to
    either before an exception stays done. *)
Definition G (A : Type) : Type := Window -> State -> Result A * Window * State.

Definition gret {A} (a : A) : G A := fun w s => (Ok a, w, s).

Definition gbind {A B} (c : G A) (k : A -> G B) : G B :=
  fun w s =>
    match c w s with
    | (Ok a, w', s') => k a w' s'
    | (Raised e, w', s') => (Raised e, w', s')
    end.

Definition graise {A} (e : PyException) : G A := fun w s => (Raised e, w, s).

(** A computation that does not touch the window. *)
Definition lift {A} (c : M A) : G A :=
  fun w s => let '(r, s') := c s in (r, w, s').

Definition the_window : G Window := fun w s => (Ok w, w, s).

Definition process_button_setEnabled (b : bool) : G unit :=
  fun w s => (Ok tt, {| form := form w; files_label := files_label w;
                        progress_bar := progress_bar w; process_button := b;
                        file_button := file_button w; thread := thread w |}, s).

Definition file_button_setEnabled (b : bool) : G unit :=
  fun w s => (Ok tt, {| form := form w; files_label := files_label w;
                        progress_bar := progress_bar w;
                        process_button := process_button w;
                        file_button := b; thread := thread w |}, s).

Definition files_label_setText (t : string) : G unit :=
  fun w s => (Ok tt, {| form := form w; files_label := t;
                        progress_bar := progress_bar w;
                        process_button := process_button w;
                        file_button := file_button w; thread := thread w |}, s).

(** [QProgressBar.setValue]: a value outside the range is ignored. *)
Definition progress_setValue (v : Z) : G unit :=
  fun w s =>
    (Ok tt, {| form := form w; files_label := files_label w;
               progress_bar := if ((0 <=? v) && (v <=? 100))%Z then v
                               else progress_bar w;
               process_button := process_button w;
               file_button := file_button w; thread := thread w |}, s).

Definition set_selected_files (l : list string) : G unit :=
  fun w s =>
    (Ok tt, {| form := {| api_url_text := api_url_text (form w);
                          system_instruction_text :=
                            system_instruction_text (form w);
                          instruction_combo_currentText :=
                            instruction_combo_currentText (form w);
                          max_length_input_text :=
                            max_length_input_text (form w);
                          selected_files := l |};
               files_label := files_label w; progress_bar := progress_bar w;
               process_button := process_button w;
               file_button := file_button w; thread := thread w |}, s).

Definition set_thread (th : ProcessingThread) : G unit :=
  fun w s => (Ok tt, {| form := form w; files_label := files_label w;
                        progress_bar := progress_bar w;
                        process_button := process_button w;
                        file_button := file_button w; thread := Some th |}, s).

End Widgets.

Declare Scope gui_scope.
Delimit Scope gui_scope with gui.
Notation "x <- c ;; k" := (gbind c (fun x => k))
  (at level 100, c at next level, right associativity) : gui_scope.
Notation "c ;; k" := (gbind c (fun _ => k))
  (at level 100, right associativity) : gui_scope.

Section Slots.
Context {env : Environment} {desk : Desktop}.
Local Open Scope gui_scope.

(** [f"Selected {n} images"] *)
Definition selected_text (n : nat) : string :=
  "Selected " ++ str_nat n ++ " images".

Definition select_files : G unit :=
  files <- lift (ask getOpenFileNames) ;;
  match files with
  | [] => gret tt
  | _ =>
      set_selected_files files ;;
      files_label_setText (selected_text (List.length files)) ;;
      process_button_setEnabled true
  end.

(** [process_files] with what it does to the widgets: the buttons are
    disabled before the processor is built, and the worker is kept in
    [self.thread]. *)
Definition window_process_files : G unit :=
  fun w s =>
    let disable w :=
      {| form := form w; files_label := files_label w;
         progress_bar := progress_bar w; process_button := false;
         file_button := false; thread := thread w |} in
    match process_files (form w) s with
    | (Ok None, s') => (Ok tt, w, s')
    | (Ok (Some th), s') => set_thread th (disable w) s'
    | (Raised e, s') => (Raised e, disable w, s')
    end.

Definition update_progress (current total : Z) : G unit :=
  if (total =? 0)%Z then
    graise {| exc_class := "ZeroDivisionError";
              exc_str := "division by zero" |}
  else progress_setValue (percent current total).

Definition processing_finished : G unit :=
  process_button_setEnabled true ;;
  file_button_setEnabled true ;;
  self <- the_window ;;
  files_label_setText
    (selected_text (List.length (selected_files (form self)))) ;;
  progress_setValue 0 ;;
  match thread self with
  | None =>
      graise {| exc_class := "AttributeError"; exc_str := no_start_time |}
  | Some th =>
      match start_time th with
      | Some t0 =>
          if started t0 then
            now <- lift (ask time_time) ;;
            lift (print
              "*** Output copied to clipboard and saved as txt file  ***") ;;
            lift (print ("*** Processing completed in "
                         ++ elapsed_2f now t0 ++ " seconds ***")) ;;
            lift (print " ")
          else gret tt
      | None => gret tt
      end
  end.

Definition processing_error (error_msg : string) : G unit :=
  process_button_setEnabled true ;;
  file_button_setEnabled true ;;
  files_label_setText ("Error: " ++ error_msg) ;;
  progress_setValue 0.

Definition copy_to_clipboard (text : string) : G unit :=
  lift (try_except
          (bind (ask (pyperclip_copy text))
             (fun fault =>
                match fault with
                | Some e => raise e
                | None => ret tt
                end))
          (fun e => print ("Failed to copy to clipboard: " ++ exc_str e))).

(** The slot each signal is connected to in [process_files]. *)
Definition slot (sig : Signal) : G unit :=
  match sig with
  | progress current total => update_progress current total
  | finished => processing_finished
  | error msg => processing_error msg
  | result_ready text => copy_to_clipboard text
  end.

(** The signals reach their slots one at a time, in the order they were
    emitted. *)
Fixpoint deliver (sigs : list Signal) : G unit :=
  match sigs with
  | [] => gret tt
  | sig :: rest => slot sig ;; deliver rest
  end.

(** The worker kept in [self.thread] runs, and the window receives what
    it emitted.  The window holds the thread object itself, so it sees
    the [start_time] that [run] has set. *)
Definition thread_round : G unit :=
  fun w s =>
    match thread w with
    | None => (Ok tt, w, s)
    | Some th =>
        match run th s with
        | (Ok th', s') =>
            (set_thread th' ;; deliver (signals (run_events th s))) w s'
        | (Raised e, s') => (Raised e, w, s')
        end
    end.

(** A signal the worker emits for a file: a result, or progress with a
    total that is not zero. *)
Definition file_signal (sig : Signal) : Prop :=
  match sig with
  | progress _ total => total <> 0
  | result_ready _ => True
  | finished | error _ => False
  end.

(** [w'] differs from [w] at most in the value of the progress bar. *)
Definition same_but_bar (w w' : Window) : Prop :=
  form w' = form w /\ files_label w' = files_label w /\
  process_button w' = process_button w /\ file_button w' = file_button w /\
  thread w' = thread w.

End Slots.

(** ** A scripted environment

    A world in which the image library hands back the path it was given,
    the server answers from a script keyed by image, and the disk refuses
    the paths listed as read-only. *)
Module Demo.

Record script := {
  clock : nat;
  unreachable : list string;
  speechless : list string;
  readonly : list string;
  disk_full : list string
}.

Definition tick (w : script) : script :=
  {| clock := S (clock w); unreachable := unreachable w;
     speechless := speechless w; readonly := readonly w;
     disk_full := disk_full w |}.

Definition mem (x : string) (l : list string) : bool :=
  existsb (String.eqb x) l.

Definition generate (args : GenerateArgs string) (w : script)
  : Result (option string) * script :=
  match arg_images args with
  | [img] =>
      if mem img (unreachable w) then
        (Raised {| exc_class := "ConnectionError";
                   exc_str := "server unreachable" |}, tick w)
      else if mem img (speechless w) then (Ok (Some ""), tick w)
      else (Ok (Some ("caption of " ++ img)), tick w)
  | _ => (Ok None, tick w)
  end.

Definition offline : PyException :=
  {| exc_class := "KoboldAPIError"; exc_str := "server unreachable" |}.

Definition denied : PyException :=
  {| exc_class := "PermissionError"; exc_str := "Permission denied" |}.

Definition no_space : PyException :=
  {| exc_class := "OSError"; exc_str := "No space left on device" |}.

Definition env : Environment :=
  {| World := script;
     Image := string;
     Timestamp := nat;
     os_path := Posix;
     int_max_str_digits := 4300;
     time_time := fun w => (clock w, tick w);
     KoboldAPICore_new := fun url w =>
       (if mem url (unreachable w) then Some offline else None, tick w);
     process_image := fun _ path w => (Ok (path, path), tick w);
     wrap_and_generate := fun _ args w => generate args w;
     os_open_w := fun path w =>
       (if mem path (readonly w) then Some denied else None, tick w);
     os_write := fun path _ w =>
       (if mem path (disk_full w) then Some (no_space, O) else None, tick w)
  |}.

(** The same environment with an image library that answers every
    path with the hint [hint]. *)
Definition env_hint (hint : string) : Environment :=
  {| World := script;
     Image := string;
     Timestamp := nat;
     os_path := Posix;
     int_max_str_digits := 4300;
     time_time := fun w => (clock w, tick w);
     KoboldAPICore_new := fun url w =>
       (if mem url (unreachable w) then Some offline else None, tick w);
     process_image := fun _ path w => (Ok (path, hint), tick w);
     wrap_and_generate := fun _ args w => generate args w;
     os_open_w := fun path w =>
       (if mem path (readonly w) then Some denied else None, tick w);
     os_write := fun path _ w =>
       (if mem path (disk_full w) then Some (no_space, O) else None, tick w)
  |}.

Definition world0 : script :=
  {| clock := 0; unreachable := []; speechless := [];
     readonly := []; disk_full := [] |}.

Definition start (w : script) : @State env := @Build_State env w ∅ [].

Definition state0 : @State env := start world0.

Definition processor0 : LLMProcessor :=
  {| instruction := "Describe the image in detail. Be specific.";
     system_instruction := "You are a helpful image captioner.";
     max_length := 256;
     core := {| api_url := "http://localhost:5001" |};
     image_processor := {| max_dimension := 384 |} |}.

Definition thread (files : list string) : @ProcessingThread env :=
  @ProcessingThread_init env processor0 files.

Definition window (limit : string) (files : list string) : MainWindow :=
  {| api_url_text := "http://localhost:5001";
     system_instruction_text := "You are a helpful image captioner.";
     instruction_combo_currentText :=
       "Describe the image in detail. Be specific.";
     max_length_input_text := limit;
     selected_files := files |}.

End Demo.

(** A desktop for the scripted environment: the dialog hands back a list
    kept in the script of the window, the clipboard always works, and
    the percentage is computed in binary64 floating point. *)
Module DemoDesk.

(** An [int] from 0 to 2^53 as a float. *)
Definition float_of_int (z : Z) : PrimFloat.float :=
  PrimFloat.of_uint63 (Uint63.of_Z z).

(** [int(x)] for a finite float: the fraction is cut off. *)
Definition int_of_float (x : PrimFloat.float) : Z :=
  match FloatOps.Prim2SF x with
  | SpecFloat.S754_finite sign m e =>
      let v := if (0 <=? e)%Z then Z.pos m * 2 ^ e else Z.pos m / 2 ^ (- e) in
      if sign then - v else v
  | _ => 0
  end.

(** [int((current / total) * 100)] for counts of files. *)
Definition float_percent (current total : Z) : Z :=
  int_of_float
    (PrimFloat.mul
       (PrimFloat.div (float_of_int current) (float_of_int total))
       (float_of_int 100)).

Definition desktop (chosen : list string) : @Desktop Demo.env :=
  @Build_Desktop Demo.env
    (fun w : Demo.script => (chosen, Demo.tick w))
    (fun (_ : string) (w : Demo.script) => (None, Demo.tick w))
    float_percent
    (fun t : nat => negb (Nat.eqb t 0))
    (fun now t : nat => str_nat (now - t) ++ ".00")
    "'builtin_function_or_method' object has no attribute 'start_time'".

Definition form0 (files : list string) : MainWindow := Demo.window "256" files.

Definition window0 (files : list string) : @Window Demo.env :=
  @Build_Window Demo.env (form0 files) "No files selected" (-1) false true
    None.

Definition running (files : list string) : @Window Demo.env :=
  @Build_Window Demo.env (form0 files) (selected_text (List.length files)) 0
    false false (Some (Demo.thread files)).

End DemoDesk.


(** * Properties *)

(** ** Strings and paths *)

Section StringFacts.
Context {env : Environment}.
Local Open Scope string_scope.

Lemma length_app (a b : string) :
  String.length (a ++ b) = (String.length a + String.length b)%nat.
Proof. induction a as [|c a IH]; simpl; [reflexivity | now rewrite IH]. Qed.

Lemma app_empty_r (s : string) : s ++ "" = s.
Proof.
  induction s as [|c s IH]; [reflexivity|].
  change (String c (s ++ "") = String c s). now rewrite IH.
Qed.

Lemma take_drop (n : nat) (s : string) : Str.take n s ++ Str.drop n s = s.
Proof.
  revert s. induction n as [|n IH]; intros [|c s]; try reflexivity.
  change (String c (Str.take n s ++ Str.drop n s) = String c s).
  f_equal. apply IH.
Qed.

Lemma rfind_from_spec (c : ascii) (s : string) :
  forall i last : Z,
    Str.rfind_from c i last s
    = match Str.last_index c s with
      | Some j => i + Z.of_nat j
      | None => last
      end.
Proof.
  induction s as [|a s IH]; intros i last; simpl; [reflexivity|].
  rewrite IH. destruct (Str.last_index c s) as [j|]; [lia|].
  destruct (decide (a = c)); [lia | reflexivity].
Qed.

Lemma rfind_spec (c : ascii) (s : string) :
  Str.rfind c s
  = match Str.last_index c s with Some j => Z.of_nat j | None => -1 end.
Proof.
  unfold Str.rfind. rewrite rfind_from_spec.
  now destruct (Str.last_index c s).
Qed.

Lemma rfind_ge (c : ascii) (s : string) : -1 <= Str.rfind c s.
Proof. rewrite rfind_spec. destruct (Str.last_index c s); lia. Qed.

Lemma last_index_None (c : ascii) (s : string) :
  Str.last_index c s = None -> Str.contains c s = false.
Proof.
  induction s as [|a s IH]; simpl; [reflexivity|].
  destruct (Str.last_index c s); [discriminate|].
  destruct (decide (a = c)); [discriminate | auto].
Qed.

(** At the last index of [c] stands [c], and none follows. *)
Lemma last_index_Some (c : ascii) (s : string) :
  forall j, Str.last_index c s = Some j ->
    Str.drop j s = String c (Str.drop (S j) s) /\
    Str.contains c (Str.drop (S j) s) = false.
Proof.
  induction s as [|a s IH]; intros j; simpl; [discriminate|].
  destruct (Str.last_index c s) as [j'|] eqn:Hl.
  - intros [= <-]. destruct (IH j' eq_refl) as [Hd Hc]. simpl. auto.
  - destruct (decide (a = c)) as [->|]; [|discriminate].
    intros [= <-]. simpl. split; [|now apply last_index_None].
    now destruct s.
Qed.

(** Past the last index of [c] there is no [c]. *)
Lemma contains_drop_after (c : ascii) (s : string) :
  forall n : nat,
    match Str.last_index c s with Some j => (j < n)%nat | None => True end ->
    Str.contains c (Str.drop n s) = false.
Proof.
  induction s as [|a s IH]; intros n; simpl.
  { now destruct n. }
  destruct (Str.last_index c s) as [j|] eqn:Hl.
  - intros Hlt. destruct n as [|n]; [lia|]. simpl. apply IH. lia.
  - destruct (decide (a = c)) as [->|Hne].
    + intros Hlt. destruct n as [|n]; [lia|]. simpl. now apply IH.
    + intros _. destruct n as [|n]; simpl.
      * destruct (decide (a = c)); [done|]. now apply last_index_None.
      * now apply IH.
Qed.

Lemma splitext_skip_dots_Some (n : nat) (p : string) :
  forall (a d : nat) (r : string * string),
    splitext_skip_dots n p a d = Some r -> r = (Str.take d p, Str.drop d p).
Proof.
  induction n as [|n IH]; intros a d r; simpl; [discriminate|].
  destruct (negb _); [now intros [= <-] | apply IH].
Qed.

(** The two ways [_splitext] returns: no extension, or a cut at the
    last dot, which then lies after every separator. *)
Lemma _splitext_cases (p : string) (sep : ascii) (alt : option ascii) :
  _splitext p sep alt extsep = (p, "") \/
  exists d : nat,
    Str.last_index extsep p = Some d /\
    Str.rfind sep p < Z.of_nat d /\
    (forall a, alt = Some a -> Str.rfind a p < Z.of_nat d) /\
    _splitext p sep alt extsep = (Str.take d p, Str.drop d p).
Proof.
  unfold _splitext. rewrite (rfind_spec extsep p).
  pose proof (rfind_ge sep p) as Hge.
  destruct (Str.last_index extsep p) as [d|] eqn:Hd.
  2:{ left. destruct (Z.gtb_spec (-1)
               match alt with
               | Some a => Z.max (Str.rfind sep p) (Str.rfind a p)
               | None => Str.rfind sep p
               end) as [Hgt|Hgt]; [|reflexivity].
      exfalso. destruct alt; lia. }
  destruct (Z.gtb_spec (Z.of_nat d)
              match alt with
              | Some a => Z.max (Str.rfind sep p) (Str.rfind a p)
              | None => Str.rfind sep p
              end) as [Hgt|Hgt]; [|now left].
  destruct (splitext_skip_dots _ _ _ _) as [r|] eqn:Hskip; [|now left].
  right. exists d.
  apply splitext_skip_dots_Some in Hskip. rewrite Nat2Z.id in Hskip.
  repeat split; [| |exact Hskip].
  - destruct alt; lia.
  - intros a ->. lia.
Qed.

Lemma rfind_lt_contains (c : ascii) (p : string) (d : nat) :
  Str.rfind c p < Z.of_nat d -> Str.contains c (Str.drop (S d) p) = false.
Proof.
  rewrite rfind_spec. intros Hlt. apply contains_drop_after.
  destruct (Str.last_index c p); [lia | exact I].
Qed.

(** [splitext] cuts the path in two; the second part is empty, or a
    dot followed by characters among which there is neither a dot nor
    a separator. *)
Lemma splitext_parts (pf : Platform) (p : string) :
  let root := fst (splitext pf p) in
  let ext := snd (splitext pf p) in
  p = root ++ ext /\
  (ext = "" \/
   exists e,
     ext = String extsep e /\
     Str.contains extsep e = false /\
     Str.contains (sep pf) e = false /\
     forall a, altsep pf = Some a -> Str.contains a e = false).
Proof.
  unfold splitext.
  destruct (_splitext_cases p (sep pf) (altsep pf))
    as [-> | (d & Hd & Hsep & Halt & ->)]; simpl.
  { split; [|now left]. symmetry. apply app_empty_r. }
  split; [now rewrite take_drop|]. right.
  destruct (last_index_Some _ _ _ Hd) as [Hdrop Hnodot].
  exists (Str.drop (S d) p). repeat split; try assumption.
  - now apply rfind_lt_contains.
  - intros a Ha. apply rfind_lt_contains. now apply Halt.
Qed.

(** *** Putting an extension on a base name *)

Lemma drop_app (r t : string) (a : nat) :
  (a <= String.length r)%nat -> Str.drop a (r ++ t) = Str.drop a r ++ t.
Proof.
  revert a. induction r as [|c r IH]; intros [|a] Hle; simpl in *;
    try reflexivity; try lia.
  apply IH. lia.
Qed.

Lemma take_app_length (r t : string) : Str.take (String.length r) (r ++ t) = r.
Proof.
  induction r as [|c r IH]; simpl; [now destruct t|]. now rewrite IH.
Qed.

Lemma drop_app_length (r t : string) : Str.drop (String.length r) (r ++ t) = t.
Proof. induction r as [|c r IH]; simpl; [reflexivity | exact IH]. Qed.

Lemma length_drop (a : nat) (s : string) :
  String.length (Str.drop a s) = (String.length s - a)%nat.
Proof.
  revert s. induction a as [|a IH]; intros [|c s]; simpl; try reflexivity.
  apply IH.
Qed.

Lemma drop_succ (a : nat) (s q : string) (c : ascii) :
  Str.drop a s = String c q -> Str.drop (S a) s = q.
Proof.
  revert s. induction a as [|a IH]; intros [|c' s]; simpl; try discriminate.
  - now intros [= _ ->].
  - intros H. apply IH in H. exact H.
Qed.

Lemma last_index_lt (c : ascii) (s : string) (j : nat) :
  Str.last_index c s = Some j -> (j < String.length s)%nat.
Proof.
  revert j. induction s as [|a s IH]; intros j; simpl; [discriminate|].
  destruct (Str.last_index c s) as [j'|].
  - intros [= <-]. specialize (IH j' eq_refl). lia.
  - destruct (decide (a = c)); [|discriminate]. intros [= <-]. lia.
Qed.

Lemma rfind_lt (c : ascii) (s : string) :
  Str.rfind c s < Z.of_nat (String.length s).
Proof.
  rewrite rfind_spec. destruct (Str.last_index c s) as [j|] eqn:Hj; [|lia].
  apply last_index_lt in Hj. lia.
Qed.

Lemma contains_last_index (c : ascii) (t : string) :
  Str.contains c t = false -> Str.last_index c t = None.
Proof.
  induction t as [|b t IH]; simpl; [reflexivity|].
  destruct (decide (b = c)); [discriminate|]. intros H. now rewrite IH.
Qed.

(** A tail without [c] does not move the last index of [c]. *)
Lemma last_index_app_without (c : ascii) (r t : string) :
  Str.contains c t = false ->
  Str.last_index c (r ++ t) = Str.last_index c r.
Proof.
  intros Ht. induction r as [|a r IH]; simpl.
  - now apply contains_last_index.
  - now rewrite IH.
Qed.

Lemma last_index_app_at (c : ascii) (r e : string) :
  Str.contains c e = false ->
  Str.last_index c (r ++ String c e) = Some (String.length r).
Proof.
  intros He. induction r as [|a r IH]; simpl.
  - rewrite (contains_last_index c e He).
    destruct (decide (c = c)); congruence.
  - now rewrite IH.
Qed.

(** The loop of [_splitext] over [n] characters from index [a]: it
    returns from inside exactly when one of them is not a dot. *)
Lemma splitext_skip_dots_spec (p : string) (d n : nat) :
  forall a : nat,
    (a + n <= String.length p)%nat ->
    splitext_skip_dots n p a d
    = if dots_only (Str.take n (Str.drop a p)) then None
      else Some (Str.take d p, Str.drop d p).
Proof.
  induction n as [|n IH]; intros a Hle; simpl; [reflexivity|].
  destruct (Str.drop a p) as [|c q] eqn:Hq.
  { pose proof (length_drop a p) as Hl. rewrite Hq in Hl. simpl in Hl. lia. }
  unfold Str.slice1. rewrite Hq. simpl.
  rewrite (IH (S a)) by lia. rewrite (drop_succ _ _ _ _ Hq).
  unfold dots_only. simpl.
  replace (Ascii.eqb c extsep) with (bool_decide (c = extsep)).
  2:{ destruct (Ascii.eqb_spec c extsep); [now apply bool_decide_eq_true
                                         | now apply bool_decide_eq_false]. }
  destruct (bool_decide (c = extsep)); simpl; [|reflexivity].
  destruct q; reflexivity.
Qed.

Lemma sep_index_app (pf : Platform) (r e : string) :
  Str.contains (sep pf) e = false ->
  (forall a, altsep pf = Some a -> Str.contains a e = false) ->
  sep_index pf (r ++ String extsep e) = sep_index pf r.
Proof.
  intros Hsep Halt.
  assert (Hc : forall c, c <> extsep -> Str.contains c e = false ->
               Str.rfind c (r ++ String extsep e) = Str.rfind c r).
  { intros c Hne Hce. rewrite !rfind_spec, last_index_app_without;
      [reflexivity|]. simpl. destruct (decide (extsep = c)); congruence. }
  unfold sep_index.
  destruct pf; simpl in *.
  - apply Hc; [discriminate | exact Hsep].
  - rewrite !Hc; [reflexivity | discriminate | now apply Halt
                 | discriminate | exact Hsep].
Qed.

(** A base whose last component is not made of dots alone, followed by
    a dot and an extension without dot or separator, is split there. *)
Lemma splitext_join (pf : Platform) (r e : string) :
  has_name pf r = true ->
  Str.contains extsep e = false ->
  Str.contains (sep pf) e = false ->
  (forall a, altsep pf = Some a -> Str.contains a e = false) ->
  splitext pf (r ++ String extsep e) = (r, String extsep e).
Proof.
  intros Hname Hdot Hsep Halt.
  pose proof (sep_index_app pf r e Hsep Halt) as Hsi.
  assert (Hlo : -1 <= sep_index pf r < Z.of_nat (String.length r)).
  { unfold sep_index.
    pose proof (rfind_ge (sep pf) r). pose proof (rfind_lt (sep pf) r).
    destruct (altsep pf) as [a|]; [|lia].
    pose proof (rfind_ge a r). pose proof (rfind_lt a r). lia. }
  unfold splitext, _splitext.
  change (match altsep pf with
          | Some a => Z.max (Str.rfind (sep pf) (r ++ String extsep e))
                        (Str.rfind a (r ++ String extsep e))
          | None => Str.rfind (sep pf) (r ++ String extsep e)
          end) with (sep_index pf (r ++ String extsep e)).
  rewrite Hsi, (rfind_spec extsep), (last_index_app_at _ _ _ Hdot).
  destruct (Z.gtb_spec (Z.of_nat (String.length r)) (sep_index pf r));
    [|lia].
  rewrite Nat2Z.id, splitext_skip_dots_spec.
  2:{ rewrite length_app. simpl. lia. }
  rewrite drop_app by lia.
  replace (Z.to_nat (Z.of_nat (String.length r) - (sep_index pf r + 1)))
    with (String.length (Str.drop (Z.to_nat (sep_index pf r + 1)) r)).
  2:{ rewrite length_drop. lia. }
  rewrite take_app_length.
  unfold has_name, file_name in Hname.
  apply negb_true_iff in Hname. rewrite Hname.
  now rewrite take_app_length, drop_app_length.
Qed.

(** *** Decimal values *)

Lemma decimal_char_value (c : ascii) :
  Str.is_decimal_char c = true ->
  0 <= Z.of_nat (nat_of_ascii c) - 48 <= 9 /\
  (Z.of_nat (nat_of_ascii c) - 48 = 0 -> c = "0"%char).
Proof.
  unfold Str.is_decimal_char. intros H.
  apply andb_true_iff in H as [H1 H2].
  apply Nat.leb_le in H1, H2. split; [lia|].
  intros H0. rewrite <- (ascii_nat_embedding c).
  replace (nat_of_ascii c) with 48%nat by lia. reflexivity.
Qed.

Lemma decimal_value_bounds (s : string) :
  forall acc : Z,
    Str.all_chars Str.is_decimal_char s = true -> 0 <= acc ->
    acc <= Str.decimal_value acc s /\
    (Str.decimal_value acc s = 0 -> acc = 0 /\ zeros_only s = true).
Proof.
  induction s as [|c s IH]; intros acc Hall Hacc; simpl in *.
  { split; [lia | now intros ->]. }
  apply andb_true_iff in Hall as [Hc Hall].
  destruct (decimal_char_value c Hc) as [Hd Hz].
  destruct (IH (10 * acc + (Z.of_nat (nat_of_ascii c) - 48)) Hall) as [Hle H0];
    [lia|].
  split; [lia|].
  intros Hv. destruct (H0 Hv) as [Hacc' Hzs].
  split; [lia|]. unfold zeros_only in *. simpl.
  rewrite Hzs, andb_true_r. apply bool_decide_eq_true. apply Hz. lia.
Qed.

Lemma zeros_only_value (s : string) :
  zeros_only s = true ->
  Str.all_chars Str.is_decimal_char s = true /\ Str.decimal_value 0 s = 0.
Proof.
  unfold zeros_only. induction s as [|c s IH]; simpl; [done|].
  intros H. apply andb_true_iff in H as [Hc Hs].
  apply bool_decide_eq_true in Hc as ->. simpl. now apply IH.
Qed.

Lemma zeros_only_isdigit (t : string) :
  t <> "" -> zeros_only t = true -> Str.isdigit t = true.
Proof.
  intros Hne Hz. destruct t as [|c t]; [done|].
  unfold Str.isdigit. revert Hz. generalize (String c t). clear.
  unfold zeros_only. induction s as [|c s IH]; simpl; [done|].
  intros H. apply andb_true_iff in H as [Hc Hs].
  apply bool_decide_eq_true in Hc as ->. now apply IH.
Qed.

(** What [int(t) if t.isdigit() else 256] evaluates to, when it does
    not raise. *)
Lemma parse_max_length_value (t : string) (n : Z) :
  parse_max_length t = Ok n ->
  0 <= n /\ (n = 0 <-> t <> "" /\ zeros_only t = true).
Proof.
  unfold parse_max_length, int_.
  destruct (Str.isdigit t) eqn:Hdigit.
  2:{ intros [= <-]. split; [lia|]. split; [lia|].
      intros [Hne Hz]. rewrite (zeros_only_isdigit t Hne Hz) in Hdigit.
      discriminate. }
  destruct (exceeds_limit _ _); [discriminate|].
  destruct (Str.all_chars Str.is_decimal_char t) eqn:Hall; simpl;
    [|discriminate].
  destruct (String.eqb_spec t "") as [->|Hne]; simpl; [discriminate|].
  intros [= <-].
  destruct (decimal_value_bounds t 0 Hall) as [Hle H0]; [lia|].
  split; [exact Hle|]. split.
  - intros Hv. split; [exact Hne | now apply H0].
  - intros [_ Hz]. now apply zeros_only_value.
Qed.

End StringFacts.

Section Facts.
Context {env : Environment}.
Local Open Scope py_scope.
Local Open Scope list_scope.

(** ** What one call does to the state *)

Lemma process_file_unfold (self : LLMProcessor) (f : string) (s : State) :
  process_file self f s =
  let ip := image_processor self in
  match process_image ip f (world s) with
  | (Raised e, w1) => (Raised e, with_trace s w1 [CallProcessImage ip f])
  | (Ok (img, out), w1) =>
      let args := generate_args self img in
      match wrap_and_generate (core self) args w1 with
      | (Raised e, w2) =>
          (Raised e, with_trace s w2 [CallProcessImage ip f;
                                      CallGenerate (core self) args])
      | (Ok r, w2) =>
          (Ok (r, out),
           with_trace s w2
             [CallProcessImage ip f; CallGenerate (core self) args;
              Print "*** Output: ";
              Print (newline ++ format_optional r ++ newline)%string])
      end
  end.
Proof.
  unfold process_file, ImageProcessor_process_image,
    KoboldAPICore_wrap_and_generate, bind, log, call, print, ret, with_trace;
    simpl.
  destruct (process_image _ f (world s)) as [[[img out]|e] w1]; simpl;
    [|reflexivity].
  destruct (wrap_and_generate _ _ w1) as [[r|e] w2]; simpl;
    rewrite <- ?app_assoc; reflexivity.
Qed.

Lemma save_result_unfold (self : LLMProcessor) (text out : string) (s : State) :
  save_result self text out s =
  let path := txt_output_path out in
  match os_open_w path (world s) with
  | (Some e, w1) =>
      (Ok false,
       with_trace s w1
         [FileOpen path;
          Print ("Error saving to " ++ path ++ ": " ++ exc_str e)%string])
  | (None, w1) =>
      match os_write path text w1 with
      | (Some (e, n), w2) =>
          (Ok false,
           {| world := w2; fs := <[path := Str.take n text]> (fs s);
              trace := trace s ++
                [FileOpen path; FileWrite path text;
                 Print ("Error saving to " ++ path ++ ": " ++ exc_str e)%string] |})
      | (None, w2) =>
          (Ok true,
           {| world := w2; fs := <[path := text]> (fs s);
              trace := trace s ++ [FileOpen path; FileWrite path text] |})
      end
  end.
Proof.
  unfold save_result, try_except, open_w, file_write, bind, log, ask, raise,
    set_file, get_file, print, ret, with_trace; simpl.
  destruct (os_open_w _ (world s)) as [[e|] w1]; simpl.
  { rewrite <- ?app_assoc. reflexivity. }
  destruct (os_write _ text w1) as [[[e n]|] w2]; simpl;
    rewrite lookup_insert_eq; simpl; rewrite insert_insert_eq;
    rewrite <- ?app_assoc; reflexivity.
Qed.

Lemma run_body_unfold (self : ProcessingThread) (i : Z) (f : string)
    (s : State) :
  run_body self i f s =
  match process_file (processor self) f s with
  | (Raised e, s1) => (Raised e, s1)
  | (Ok (r, out), s1) =>
      let tick := Emit (progress (i + 1) (Z.of_nat (List.length (files self)))) in
      match truthy r with
      | None => (Ok tt, with_trace s1 (world s1) [tick])
      | Some t =>
          let s2 := snd (save_result (processor self) t out s1) in
          (Ok tt, with_trace s2 (world s2) [Emit (result_ready t); tick])
      end
  end.
Proof.
  unfold run_body, bind at 1.
  destruct (process_file _ f s) as [[[r out]|e] s1]; [|reflexivity].
  destruct (truthy r) as [t|]; [|reflexivity].
  unfold bind, emit, log, with_trace. rewrite save_result_unfold. simpl.
  destruct (os_open_w _ (world s1)) as [[e|] w1]; simpl.
  { rewrite <- ?app_assoc. reflexivity. }
  destruct (os_write _ t w1) as [[[e n]|] w2]; simpl;
    rewrite <- ?app_assoc; reflexivity.
Qed.

(** ** The events of one call *)

Ltac split_events :=
  unfold progress_of, errors_of, completions_of, processed, results_of,
    file_ops, signals, generate_calls;
  rewrite ?omap_app; simpl.

Lemma process_file_events (self : LLMProcessor) (f : string) (s : State) :
  exists evs,
    trace (snd (process_file self f s)) = trace s ++ evs /\
    fs (snd (process_file self f s)) = fs s /\
    signals evs = [] /\ processed evs = [f] /\ file_ops evs = [].
Proof.
  rewrite process_file_unfold; simpl.
  destruct (process_image _ f (world s)) as [[[img out]|e] w1]; simpl.
  - destruct (wrap_and_generate _ _ w1) as [[r|e] w2]; simpl;
      eexists; repeat split.
  - eexists; repeat split.
Qed.

Lemma save_result_events (self : LLMProcessor) (text out : string)
    (s : State) :
  exists b evs,
    fst (save_result self text out s) = Ok b /\
    trace (snd (save_result self text out s)) = trace s ++ evs /\
    signals evs = [] /\ processed evs = [] /\
    Forall (fun p => p = txt_output_path out) (file_ops evs).
Proof.
  rewrite save_result_unfold; simpl.
  destruct (os_open_w _ (world s)) as [[e|] w1]; simpl.
  { do 2 eexists; repeat split. repeat constructor. }
  destruct (os_write _ text w1) as [[[e n]|] w2]; simpl;
    do 2 eexists; repeat split; repeat constructor.
Qed.

Lemma silent_events (evs : list Event) :
  signals evs = [] ->
  progress_of evs = [] /\ errors_of evs = [] /\ completions_of evs = [] /\
  results_of evs = [].
Proof.
  induction evs as [|ev evs IH]; [done|].
  destruct ev as [| [] | | | | | |]; simpl; try discriminate; exact IH.
Qed.

(** Events of one iteration of the loop in [run]: the iteration raises
    exactly when [process_file] does, and then emits nothing. *)
Lemma run_body_events (self : ProcessingThread) (i : Z) (f : string)
    (s : State) :
  exists evs,
    trace (snd (run_body self i f s)) = trace s ++ evs /\
    processed evs = [f] /\ errors_of evs = [] /\ completions_of evs = [] /\
    match fst (run_body self i f s) with
    | Ok _ =>
        progress_of evs = [(i + 1, Z.of_nat (List.length (files self)))] /\
        exists r, fst (process_file (processor self) f s) = Ok r
    | Raised e =>
        signals evs = [] /\
        fst (process_file (processor self) f s) = Raised e
    end.
Proof.
  rewrite run_body_unfold.
  destruct (process_file_events (processor self) f s)
    as (evs & Htr & _ & Hsig & Hproc & _).
  destruct (silent_events _ Hsig) as (Hp & He & Hc & _).
  destruct (process_file _ f s) as [[[r out]|e] s1]; simpl in *.
  - destruct (truthy r) as [t|]; simpl.
    + destruct (save_result_events (processor self) t out s1)
        as (b & evs2 & _ & Htr2 & Hsig2 & Hproc2 & _).
      destruct (silent_events _ Hsig2) as (Hp2 & He2 & Hc2 & _).
      rewrite Htr2, Htr, <- !app_assoc.
      eexists; split; [reflexivity|].
      split_events.
      fold (processed evs) (processed evs2) (errors_of evs) (errors_of evs2)
        (completions_of evs) (completions_of evs2) (progress_of evs)
        (progress_of evs2).
      rewrite Hproc, Hproc2, He, He2, Hc, Hc2, Hp, Hp2. eauto 10.
    + rewrite Htr, <- !app_assoc.
      eexists; split; [reflexivity|].
      split_events.
      fold (processed evs) (errors_of evs) (completions_of evs)
        (progress_of evs).
      rewrite Hproc, He, Hc, Hp. eauto 10.
  - exists evs. eauto 10.
Qed.

(** ** The loop *)

Lemma progress_run_S (i : Z) (n : nat) (total : Z) :
  progress_run i (S n) total = (i + 1, total) :: progress_run (i + 1) n total.
Proof.
  unfold progress_run. simpl. f_equal.
  rewrite <- seq_shift, map_map. apply map_ext. intros k. f_equal. lia.
Qed.

Lemma for_enumerate_cons {A} (body : Z -> A -> M unit) (i : Z) (x : A)
    (l : list A) (s : State) :
  for_enumerate i (x :: l) body s =
  match body i x s with
  | (Ok _, s') => for_enumerate (i + 1) l body s'
  | (Raised e, s') => (Raised e, s')
  end.
Proof. reflexivity. Qed.

(** When every call of [process_file] in the loop returns, the loop
    returns, having processed every file and reported each one. *)
Lemma loop_all_succeed (self : ProcessingThread) (l : list string) :
  forall (i : Z) (s : State),
    (forall k f s_k,
        l !! k = Some f ->
        loop_state (run_body self) i l k s = Some s_k ->
        exists r, fst (process_file (processor self) f s_k) = Ok r) ->
    exists evs,
      fst (for_enumerate i l (run_body self) s) = Ok tt /\
      trace (snd (for_enumerate i l (run_body self) s)) = trace s ++ evs /\
      progress_of evs
      = progress_run i (List.length l) (Z.of_nat (List.length (files self))) /\
      processed evs = l /\ errors_of evs = [] /\ completions_of evs = [].
Proof.
  induction l as [|x l IH]; intros i s Hall.
  { exists []. simpl. rewrite app_nil_r. done. }
  destruct (Hall O x s eq_refl eq_refl) as [r0 Hr0].
  destruct (run_body_events self i x s) as (evs & Htr & Hproc & He & Hc & Hout).
  rewrite for_enumerate_cons.
  destruct (run_body self i x s) as [[[]|e] s1] eqn:Hbody; simpl in *.
  2:{ destruct Hout as [_ Hout]. congruence. }
  destruct Hout as [Hp _].
  destruct (IH (i + 1) s1) as (evs' & Hok & Htr' & Hp' & Hproc' & He' & Hc').
  { intros k f s_k Hk Hs. apply (Hall (S k) f s_k Hk).
    simpl. rewrite Hbody. exact Hs. }
  exists (evs ++ evs'). rewrite Hok, Htr', Htr, app_assoc.
  repeat split; [| | |].
  - rewrite progress_run_S. unfold progress_of in *. rewrite omap_app.
    rewrite Hp, Hp'. reflexivity.
  - unfold processed in *. rewrite omap_app, Hproc, Hproc'. reflexivity.
  - unfold errors_of in *. rewrite omap_app, He, He'. reflexivity.
  - unfold completions_of in *. rewrite omap_app, Hc, Hc'. reflexivity.
Qed.

(** When [process_file] raises in iteration [k], the loop raises the
    same exception there: the files before [k] were reported, the file
    at [k] was entered, and nothing after it was touched. *)
Lemma loop_raises (self : ProcessingThread) (k : nat) :
  forall (l : list string) (i : Z) (s s_k : State) (f : string)
         (e : PyException),
    l !! k = Some f ->
    loop_state (run_body self) i l k s = Some s_k ->
    fst (process_file (processor self) f s_k) = Raised e ->
    exists evs,
      fst (for_enumerate i l (run_body self) s) = Raised e /\
      trace (snd (for_enumerate i l (run_body self) s)) = trace s ++ evs /\
      progress_of evs
      = progress_run i k (Z.of_nat (List.length (files self))) /\
      processed evs = take (S k) l /\ errors_of evs = [] /\
      completions_of evs = [].
Proof.
  induction k as [|k IH]; intros [|x l] i s s_k f e Hk Hs Hraise;
    try discriminate; simpl in Hk, Hs.
  - injection Hk as ->. injection Hs as <-.
    destruct (run_body_events self i f s) as (evs & Htr & Hproc & He & Hc & Hout).
    rewrite for_enumerate_cons.
    destruct (run_body self i f s) as [[[]|e'] s1]; simpl in *.
    { destruct Hout as [_ [r Hr]]. congruence. }
    destruct Hout as [Hsig Hr].
    destruct (silent_events _ Hsig) as (Hp & _).
    exists evs. rewrite take_0. repeat split; try done. congruence.
  - destruct (run_body_events self i x s) as (evs & Htr & Hproc & He & Hc & Hout).
    rewrite for_enumerate_cons.
    destruct (run_body self i x s) as [[[]|e'] s1]; simpl in *;
      [|discriminate].
    destruct Hout as [Hp _].
    destruct (IH l (i + 1) s1 s_k f e Hk Hs Hraise)
      as (evs' & Hres & Htr' & Hp' & Hproc' & He' & Hc').
    exists (evs ++ evs'). rewrite Hres, Htr', Htr, app_assoc.
    repeat split; [| | |].
    + rewrite progress_run_S. unfold progress_of in *. rewrite omap_app.
      rewrite Hp, Hp'. reflexivity.
    + unfold processed in *. rewrite omap_app, Hproc, Hproc'. reflexivity.
    + unfold errors_of in *. rewrite omap_app, He, He'. reflexivity.
    + unfold completions_of in *. rewrite omap_app, Hc, Hc'. reflexivity.
Qed.

Lemma run_body_enters (self : ProcessingThread) (i : Z) (f : string)
    (s : State) :
  exists evs,
    trace (snd (run_body self i f s))
    = trace s ++ CallProcessImage (image_processor (processor self)) f :: evs.
Proof.
  rewrite run_body_unfold, process_file_unfold. simpl.
  destruct (process_image _ f (world s)) as [[[img out]|e] w1]; simpl;
    [|eauto].
  destruct (wrap_and_generate _ _ w1) as [[r|e] w2]; simpl; [|eauto].
  destruct (truthy r) as [t|]; simpl.
  - match goal with |- context [save_result ?p t out ?s1] =>
      destruct (save_result_events p t out s1) as (b & evs & _ & Htr & _)
    end.
    rewrite Htr. simpl. rewrite <- !app_assoc. simpl. eauto.
  - rewrite <- !app_assoc. simpl. eauto.
Qed.

Lemma loop_extends (self : ProcessingThread) (l : list string) :
  forall (i : Z) (s : State),
  exists evs,
    trace (snd (for_enumerate i l (run_body self) s)) = trace s ++ evs.
Proof.
  induction l as [|x l IH]; intros i s.
  { exists []. simpl. now rewrite app_nil_r. }
  rewrite for_enumerate_cons.
  destruct (run_body_enters self i x s) as [evs Htr].
  destruct (run_body self i x s) as [[[]|e] s1]; simpl in *; [|eauto].
  destruct (IH (i + 1) s1) as [evs' Htr'].
  rewrite Htr', Htr, <- app_assoc. eauto.
Qed.

(** [loop_state] tells the truth: the state it gives for position [k]
    is a state of the loop, and what the loop does next from it is to
    enter [process_file] on the file at [k]. *)
Lemma loop_enters (self : ProcessingThread) (k : nat) :
  forall (l : list string) (i : Z) (s s_k : State) (f : string),
    l !! k = Some f ->
    loop_state (run_body self) i l k s = Some s_k ->
    exists evs,
      trace (snd (for_enumerate i l (run_body self) s))
      = trace s_k
        ++ CallProcessImage (image_processor (processor self)) f :: evs.
Proof.
  induction k as [|k IH]; intros [|x l] i s s_k f Hk Hs;
    try discriminate; simpl in Hk, Hs; rewrite for_enumerate_cons.
  - injection Hk as ->. injection Hs as <-.
    destruct (run_body_enters self i f s) as [evs Htr].
    destruct (run_body self i f s) as [[[]|e] s1]; simpl in *; [|eauto].
    destruct (loop_extends self l (i + 1) s1) as [evs' Htr'].
    rewrite Htr', Htr, <- app_assoc. simpl. eauto.
  - destruct (run_body self i x s) as [[[]|e] s1]; [|discriminate].
    exact (IH l (i + 1) s1 s_k f Hk Hs).
Qed.

Lemma loop_state_next {A} (body : Z -> A -> M unit) (k : nat) :
  forall (l : list A) (i : Z) (s s_k s' : State) (x : A),
    loop_state body i l k s = Some s_k ->
    l !! k = Some x ->
    body (i + Z.of_nat k) x s_k = (Ok tt, s') ->
    is_Some (l !! S k) ->
    loop_state body i l (S k) s = Some s'.
Proof.
  induction k as [|k IH]; intros [|y l] i s s_k s' x Hs Hk Hbody Hnext;
    try discriminate; simpl in Hs, Hk.
  - injection Hk as ->. injection Hs as <-.
    rewrite Z.add_0_r in Hbody. simpl. rewrite Hbody.
    destruct l; [destruct Hnext; discriminate | reflexivity].
  - change (loop_state body i (y :: l) (S (S k)) s)
      with (match body i y s with
            | (Ok _, s1) => loop_state body (i + 1) l (S k) s1
            | (Raised _, _) => None
            end).
    destruct (body i y s) as [[[]|e] s1]; [|discriminate].
    apply (IH l (i + 1) s1 s_k s' x Hs Hk); [|exact Hnext].
    rewrite <- Hbody. f_equal. lia.
Qed.

(** ** The run *)

Lemma run_unfold (self : ProcessingThread) (s : State) :
  run self s =
  let s0 := snd (ask time_time s) in
  let self' := {| processor := processor self; files := files self;
                  start_time := Some (fst (time_time (world s))) |} in
  match for_enumerate 0 (files self) (run_body self) s0 with
  | (Ok _, s1) => (Ok self', with_trace s1 (world s1) [Emit finished])
  | (Raised e, s1) =>
      (Ok self', with_trace s1 (world s1) [Emit (error (exc_str e))])
  end.
Proof.
  unfold run, bind at 1, ask. simpl.
  destruct (time_time (world s)) as [t w]. simpl.
  unfold bind at 1, try_except, bind at 1. simpl.
  change (run_body {| processor := processor self; files := files self;
                      start_time := Some t |})
    with (run_body self).
  destruct (for_enumerate 0 (files self) (run_body self) _) as [[[]|e] s1];
    reflexivity.
Qed.

Lemma ask_trace {A} (f : World -> A * World) (s : State) :
  trace (snd (ask f s)) = trace s.
Proof. unfold ask. destruct (f (world s)). reflexivity. Qed.

Lemma progress_run_0 (n : nat) (total : Z) :
  progress_run 0 n total = map (fun k => (Z.of_nat k, total)) (seq 1 n).
Proof. reflexivity. Qed.

(** [arrives] tells the truth about [run]: from the state it gives for
    position [k], the next event of the run is the entry into
    [process_file] on the file at [k]. *)
Lemma arrives_enters (self : ProcessingThread) (s s_k : State) (k : nat)
    (f : string) :
  files self !! k = Some f ->
  arrives self k s = Some s_k ->
  exists rest,
    trace (snd (run self s))
    = trace s_k ++ CallProcessImage (image_processor (processor self)) f :: rest.
Proof.
  intros Hk Harr. unfold arrives in Harr.
  destruct (loop_enters self k (files self) 0 _ _ f Hk Harr) as [rest Hrest].
  rewrite run_unfold. simpl.
  destruct (for_enumerate 0 (files self) (run_body self) _)
    as [[[]|e] s3]; simpl in *; rewrite Hrest, <- app_assoc; simpl; eauto.
Qed.

(** A run in which every call of [process_file] returns. *)
Lemma run_all_succeed (self : ProcessingThread) (s : State) :
  all_succeed self s ->
  exists evs,
    trace (snd (run self s)) = trace s ++ evs ++ [Emit finished] /\
    progress_of evs
    = progress_run 0 (List.length (files self))
        (Z.of_nat (List.length (files self))) /\
    processed evs = files self /\ errors_of evs = [] /\
    completions_of evs = [].
Proof.
  intros Hall.
  destruct (loop_all_succeed self (files self) 0 (snd (ask time_time s)) Hall)
    as (evs & Hok & Htr & Hrest).
  exists evs. rewrite run_unfold. simpl.
  destruct (for_enumerate 0 (files self) (run_body self) _) as [[[]|e] s1];
    simpl in *; [|discriminate].
  rewrite Htr, ask_trace, <- app_assoc. done.
Qed.

(** C1: when [process_file] returns for every file of a list of
    length N, the run emits the N progress notifications (1, N),
    (2, N), ..., (N, N) in this order, no error notification, and one
    completion notification, which is the last event of the run. *)
Theorem run_reports_every_file (self : ProcessingThread) (s : State) :
  files self <> [] ->
  all_succeed self s ->
  let N := List.length (files self) in
  exists evs,
    trace (snd (run self s)) = trace s ++ evs ++ [Emit finished] /\
    progress_of evs = map (fun k => (Z.of_nat k, Z.of_nat N)) (seq 1 N) /\
    List.length (progress_of evs) = N /\
    completions_of evs = [] /\
    errors_of evs = [].
Proof.
  intros _ Hall N.
  destruct (run_all_succeed self s Hall) as (evs & Htr & Hp & _ & He & Hc).
  exists evs. rewrite Hp, progress_run_0.
  repeat split; try done. now rewrite length_map, length_seq.
Qed.

(** C2: when [process_file] raises on the file at position [k], the
    run ends with one error notification carrying the text of the
    exception; before it come the progress notifications of the files
    at positions below [k] only, there is no completion notification,
    and the files entered are those at positions 0..k. *)
Theorem run_stops_at_first_failure (self : ProcessingThread) (s : State)
    (k : nat) (e : PyException) :
  raises_at self s k e ->
  let N := List.length (files self) in
  exists evs,
    trace (snd (run self s)) = trace s ++ evs ++ [Emit (error (exc_str e))] /\
    errors_of evs = [] /\
    progress_of evs = map (fun j => (Z.of_nat j, Z.of_nat N)) (seq 1 k) /\
    completions_of evs = [] /\
    processed evs = take (S k) (files self).
Proof.
  intros (f & s_k & Hk & Hs & Hraise) N.
  destruct (loop_raises self k (files self) 0 _ s_k f e Hk Hs Hraise)
    as (evs & Hres & Htr & Hp & Hproc & He & Hc).
  exists evs. rewrite run_unfold. simpl.
  destruct (for_enumerate 0 (files self) (run_body self) _) as [[[]|e'] s1];
    simpl in *; [discriminate|].
  injection Hres as ->.
  rewrite Htr, ask_trace, <- app_assoc, Hp, progress_run_0. done.
Qed.

(** C10: started on an empty file list, the run emits the completion
    notification and nothing else: no progress, no error, no call of a
    collaborator. *)
Theorem run_empty (self : ProcessingThread) (s : State) :
  files self = [] ->
  exists evs self',
    run self s = (Ok self', snd (run self s)) /\
    trace (snd (run self s)) = trace s ++ evs /\
    evs = [Emit finished] /\
    progress_of evs = [] /\ errors_of evs = [] /\
    completions_of evs = [tt] /\ processed evs = [].
Proof.
  intros Hnil. exists [Emit finished].
  rewrite run_unfold, Hnil. simpl. rewrite ask_trace. eauto 10.
Qed.

(** ** Persisting results *)

Lemma save_result_returns (self : LLMProcessor) (text out : string)
    (s : State) :
  fst (save_result self text out s)
  = Ok (negb (write_fails (txt_output_path out) text (world s))).
Proof.
  rewrite save_result_unfold. unfold write_fails. simpl.
  destruct (os_open_w _ (world s)) as [[e|] w1]; [reflexivity|].
  destruct (os_write _ text w1) as [[[e n]|] w2]; reflexivity.
Qed.

Lemma save_result_content (self : LLMProcessor) (text out : string)
    (s s' : State) :
  save_result self text out s = (Ok true, s') ->
  fs s' !! txt_output_path out = Some text.
Proof.
  rewrite save_result_unfold. simpl.
  destruct (os_open_w _ (world s)) as [[e|] w1]; [discriminate|].
  destruct (os_write _ text w1) as [[[e n]|] w2]; [discriminate|].
  intros [= <-]. simpl. apply lookup_insert_eq.
Qed.

Lemma truthy_Some (text : string) : text <> "" -> truthy (Some text) = Some text.
Proof.
  intros Hne. simpl. destruct (String.eqb_spec text ""); congruence.
Qed.

(** C3: [save_result] never raises: it returns false exactly when
    opening or writing the file meets a fault.  When persisting the
    text of the file at position [k] fails, the iteration still returns
    and emits the result and progress notifications it emits otherwise;
    the run then enters [process_file] on the file at position k+1,
    and a run in which every [process_file] returns reports all N
    files and completes. *)
Theorem persistence_failure_not_fatal (self : ProcessingThread)
    (s s_k s1 : State) (k : nat) (f text out : string) :
  files self !! k = Some f ->
  arrives self k s = Some s_k ->
  process_file (processor self) f s_k = (Ok (Some text, out), s1) ->
  text <> "" ->
  write_fails (txt_output_path out) text (world s1) = true ->
  let N := List.length (files self) in
  (forall p t o s', exists b,
      fst (save_result p t o s') = Ok b /\
      (write_fails (txt_output_path o) t (world s') = true -> b = false)) /\
  fst (save_result (processor self) text out s1) = Ok false /\
  exists s2 evs,
    run_body self (Z.of_nat k) f s_k = (Ok tt, s2) /\
    trace s2 = trace s1 ++ evs /\
    signals evs
    = [result_ready text; progress (Z.of_nat k + 1) (Z.of_nat N)] /\
    (forall f', files self !! S k = Some f' ->
       arrives self (S k) s = Some s2 /\
       exists rest,
         trace (snd (run self s))
         = trace s2
           ++ CallProcessImage (image_processor (processor self)) f' :: rest) /\
    (all_succeed self s ->
     exists all,
       trace (snd (run self s)) = trace s ++ all ++ [Emit finished] /\
       progress_of all = map (fun j => (Z.of_nat j, Z.of_nat N)) (seq 1 N) /\
       processed all = files self).
Proof.
  intros Hk Hs Hproc Hne Hfail N.
  split.
  { intros p t o s'. eexists. split; [apply save_result_returns|].
    intros ->. reflexivity. }
  split.
  { rewrite save_result_returns, Hfail. reflexivity. }
  pose proof (run_body_unfold self (Z.of_nat k) f s_k) as Hbody.
  rewrite Hproc, (truthy_Some text Hne) in Hbody. simpl in Hbody.
  destruct (save_result_events (processor self) text out s1)
    as (b & evs & _ & Htr & Hsig & _).
  eexists. exists (evs ++ [Emit (result_ready text);
                           Emit (progress (Z.of_nat k + 1) (Z.of_nat N))]).
  split; [exact Hbody|].
  split. { simpl. rewrite Htr, <- app_assoc. reflexivity. }
  split. { unfold signals in *. rewrite omap_app, Hsig. reflexivity. }
  split.
  - intros f' Hnext.
    assert (Harr : arrives self (S k) s = Some
              (with_trace (snd (save_result (processor self) text out s1))
                 (world (snd (save_result (processor self) text out s1)))
                 [Emit (result_ready text);
                  Emit (progress (Z.of_nat k + 1) (Z.of_nat N))])).
    { unfold arrives in *.
      eapply loop_state_next; [exact Hs | exact Hk | | eauto].
      rewrite Z.add_0_l. exact Hbody. }
    split; [exact Harr|].
    exact (arrives_enters self s _ (S k) f' Hnext Harr).
  - intros Hall.
    destruct (run_all_succeed self s Hall) as (all & Htr' & Hp & Hpr & _).
    exists all. rewrite Hp, progress_run_0. done.
Qed.

(** C9: a file for which [process_file] returns the empty string is
    treated like one for which it returns [None]: nothing is saved
    (no file is opened or written, the file system is as before), no
    result notification is emitted, and the progress notification of
    the file is. *)
Theorem empty_result_skipped (self : ProcessingThread) (i : Z) (f : string)
    (s s1 : State) (r : option string) (out : string) :
  process_file (processor self) f s = (Ok (r, out), s1) ->
  r = Some ""%string \/ r = None ->
  exists s2 evs,
    run_body self i f s = (Ok tt, s2) /\
    trace s2 = trace s ++ evs /\
    signals evs = [progress (i + 1) (Z.of_nat (List.length (files self)))] /\
    results_of evs = [] /\
    file_ops evs = [] /\
    fs s2 = fs s.
Proof.
  intros Hproc Hr.
  pose proof (run_body_unfold self i f s) as Hbody.
  destruct (process_file_events (processor self) f s)
    as (evs & Htr & Hfs & Hsig & _ & Hops).
  rewrite Hproc in Hbody, Htr, Hfs. simpl in *.
  assert (Ht : truthy r = None) by (destruct Hr as [-> | ->]; reflexivity).
  rewrite Ht in Hbody.
  eexists. eexists. split; [exact Hbody|]. simpl.
  rewrite Htr, <- app_assoc.
  split; [reflexivity|].
  destruct (silent_events _ Hsig) as (_ & _ & _ & Hres).
  unfold signals, results_of, file_ops in *.
  rewrite !omap_app, Hsig, Hres, Hops. done.
Qed.

(** C5: a successful [save_result] leaves the file holding exactly the
    text of that call, whatever the file held before.  In particular,
    of two calls in succession on the same path the second, when it
    succeeds, leaves the text of the second: the text itself when both
    calls pass the same text, not that text twice over. *)
Theorem save_result_overwrites (self : LLMProcessor) (text out : string)
    (s : State) :
  (forall s', save_result self text out s = (Ok true, s') ->
              fs s' !! txt_output_path out = Some text) /\
  (forall text0 s1 s2,
      snd (save_result self text0 out s) = s1 ->
      save_result self text out s1 = (Ok true, s2) ->
      fs s2 !! txt_output_path out = Some text) /\
  (forall s1 s2,
      save_result self text out s = (Ok true, s1) ->
      save_result self text out s1 = (Ok true, s2) ->
      fs s2 !! txt_output_path out = Some text /\
      (text <> ""%string ->
       fs s2 !! txt_output_path out <> Some (text ++ text)%string)).
Proof.
  split; [|split].
  - intros s'. apply save_result_content.
  - intros text0 s1 s2 _. apply save_result_content.
  - intros s1 s2 _ H2. rewrite (save_result_content _ _ _ _ _ H2).
    split; [reflexivity|].
    intros Hne [= Heq]. apply Hne.
    assert (Hlen : String.length text
                   = String.length (text ++ text)%string) by now rewrite <- Heq.
    rewrite length_app in Hlen.
    destruct text; [reflexivity | simpl in Hlen; lia].
Qed.

(** ** One request *)

Lemma LLMProcessor_init_unfold (url sys ins : string) (n : Z) (s : State) :
  LLMProcessor_init url sys ins n s =
  match KoboldAPICore_new url (world s) with
  | (Some e, w1) => (Raised e, with_trace s w1 [])
  | (None, w1) =>
      (Ok {| instruction := ins; system_instruction := sys; max_length := n;
             core := {| api_url := url |};
             image_processor := {| max_dimension := 384 |} |},
       with_trace s w1
         [Print "-----------------------------------------------------------------";
          Print "*** Processing... "])
  end.
Proof.
  unfold LLMProcessor_init, KoboldAPICore_init, bind, ask, raise, ret, print,
    log, with_trace.
  destruct (KoboldAPICore_new url (world s)) as [[e|] w1]; simpl.
  - now rewrite app_nil_r.
  - now rewrite <- app_assoc.
Qed.

(** C8: [process_file] first calls the image library on its path,
    through the processor's [ImageProcessor] (bound 384 for every
    processor that [LLMProcessor_init] builds).  If that raises,
    [process_file] raises the same and the server is not asked.  If it
    returns an image, the next and only request goes to
    [wrap_and_generate] of the processor's server with the two
    instructions, that one image, the configured [max_length], and
    [top_p] 0.95, [top_k] 0, [temp] 0.6, [rep_pen] 1.1, [min_p] 0.1;
    what [process_file] returns or raises, and the world it leaves, are
    what this request returns or raises and leaves. *)
Theorem process_file_requests (self : LLMProcessor) (f : string) (s : State) :
  (exists evs,
     trace (snd (process_file self f s))
     = trace s ++ CallProcessImage (image_processor self) f :: evs /\
     processed evs = [] /\
     match process_image (image_processor self) f (world s) with
     | (Raised e, _) =>
         generate_calls evs = [] /\
         fst (process_file self f s) = Raised e
     | (Ok (img, out), _) =>
         exists args evs',
           evs = CallGenerate (core self) args :: evs' /\
           generate_calls evs' = [] /\
           arg_instruction args = instruction self /\
           arg_system_instruction args = system_instruction self /\
           arg_images args = [img] /\
           arg_max_length args = max_length self /\
           arg_top_p args = 0.95%Q /\
           arg_top_k args = 0 /\
           arg_temp args = 0.6%Q /\
           arg_rep_pen args = 1.1%Q /\
           arg_min_p args = 0.1%Q
     end) /\
  match process_image (image_processor self) f (world s) with
  | (Raised e, w1) =>
      fst (process_file self f s) = Raised e /\
      world (snd (process_file self f s)) = w1
  | (Ok (img, out), w1) =>
      let request :=
        wrap_and_generate (core self)
          {| arg_instruction := instruction self;
             arg_system_instruction := system_instruction self;
             arg_images := [img];
             arg_max_length := max_length self;
             arg_top_p := 0.95;
             arg_top_k := 0;
             arg_temp := 0.6;
             arg_rep_pen := 1.1;
             arg_min_p := 0.1 |} w1 in
      fst (process_file self f s)
      = match fst request with
        | Ok result => Ok (result, out)
        | Raised e => Raised e
        end /\
      world (snd (process_file self f s)) = snd request
  end /\
  (forall ip path s0,
      ImageProcessor_process_image ip path s0
      = (fst (process_image ip path (world s0)),
         with_trace s0 (snd (process_image ip path (world s0)))
           [CallProcessImage ip path])) /\
  (forall server args s0,
      KoboldAPICore_wrap_and_generate server args s0
      = (fst (wrap_and_generate server args (world s0)),
         with_trace s0 (snd (wrap_and_generate server args (world s0)))
           [CallGenerate server args])) /\
  (forall url sys ins n s0 p s0',
      LLMProcessor_init url sys ins n s0 = (Ok p, s0') ->
      max_dimension (image_processor p) = 384 /\ max_length p = n /\
      instruction p = ins /\ system_instruction p = sys /\
      api_url (core p) = url).
Proof.
  split; [|split; [|split; [|split]]].
  - rewrite process_file_unfold. simpl.
    destruct (process_image _ f (world s)) as [[[img out]|e] w1]; simpl.
    + destruct (wrap_and_generate _ _ w1) as [[r|e] w2]; simpl;
        eexists; (split; [reflexivity|]); (split; [reflexivity|]);
        do 2 eexists; (split; [reflexivity|]); repeat split.
    + eexists. repeat split.
  - rewrite process_file_unfold. simpl.
    destruct (process_image _ f (world s)) as [[[img out]|e] w1]; simpl;
      [|split; reflexivity].
    unfold generate_args.
    destruct (wrap_and_generate _ _ w1) as [[r|e] w2]; simpl;
      split; reflexivity.
  - intros ip path s0.
    unfold ImageProcessor_process_image, bind, log, call, with_trace. simpl.
    now destruct (process_image ip path (world s0)).
  - intros server args s0.
    unfold KoboldAPICore_wrap_and_generate, bind, log, call, with_trace. simpl.
    now destruct (wrap_and_generate server args (world s0)).
  - intros url sys ins n s0 p s0'. rewrite LLMProcessor_init_unfold.
    destruct (KoboldAPICore_new url (world s0)) as [[e|] w1]; [discriminate|].
    intros [= <- _]. done.
Qed.

(** ** The path of the result file *)

(** The path [save_result] works on.  The output path is its base name
    (directory and stem, as
    [os.path.splitext] cuts it) followed by its extension, which is
    empty or a dot and characters without dot or separator.
    [save_result] works on the base name followed by ".txt" and on no
    other file: that is the file it opens, every other path keeps its
    content, and on success that file holds the text.  Any extension
    put on a base name that is not made of dots alone leads to the same
    file, as in photo.jpg and photo.txt. *)
Lemma save_result_path (self : LLMProcessor) (text out : string)
    (s : State) :
  let root := fst (splitext os_path out) in
  let ext := snd (splitext os_path out) in
  let txt := (root ++ ".txt")%string in
  let s' := snd (save_result self text out s) in
  out = (root ++ ext)%string /\
  (ext = ""%string \/
   exists e,
     ext = String extsep e /\
     Str.contains extsep e = false /\
     Str.contains (sep os_path) e = false /\
     forall a, altsep os_path = Some a -> Str.contains a e = false) /\
  (exists evs,
     trace s' = trace s ++ FileOpen txt :: evs /\
     Forall (fun p => p = txt) (file_ops evs)) /\
  (forall q, q <> txt -> fs s' !! q = fs s !! q) /\
  (fst (save_result self text out s) = Ok true -> fs s' !! txt = Some text) /\
  (forall e,
     has_name os_path root = true ->
     Str.contains extsep e = false ->
     Str.contains (sep os_path) e = false ->
     (forall a, altsep os_path = Some a -> Str.contains a e = false) ->
     txt_output_path (root ++ String extsep e) = txt) /\
  (forall pf, (fst (splitext pf "photo.jpg") ++ ".txt")%string
              = "photo.txt"%string).
Proof.
  intros root ext txt s'.
  destruct (splitext_parts os_path out) as [Hcut Hext].
  split; [exact Hcut|]. split; [exact Hext|].
  subst s'. rewrite save_result_unfold. simpl.
  fold root. fold txt. change (txt_output_path out) with txt.
  split; [|split; [|split; [|split]]].
  - destruct (os_open_w txt (world s)) as [[e|] w1]; simpl.
    { eexists. split; [reflexivity|]. constructor. }
    destruct (os_write txt text w1) as [[[e n]|] w2]; simpl;
      eexists; (split; [reflexivity|]); repeat constructor.
  - intros q Hq.
    destruct (os_open_w txt (world s)) as [[e|] w1]; simpl; [reflexivity|].
    destruct (os_write txt text w1) as [[[e n]|] w2]; simpl;
      now rewrite lookup_insert_ne.
  - destruct (os_open_w txt (world s)) as [[e|] w1]; simpl; [discriminate|].
    destruct (os_write txt text w1) as [[[e n]|] w2]; simpl; [discriminate|].
    intros _. apply lookup_insert_eq.
  - intros e Hname Hdot Hsep Halt. unfold txt_output_path.
    now rewrite (splitext_join os_path root e Hname Hdot Hsep Halt).
  - now intros [].
Qed.

(** ** The output length limit *)

(** [process_files] step by step: the early return, the conversion of
    the limit, the construction of the server object. *)
Lemma process_files_unfold (mw : MainWindow) (s : State) :
  process_files mw s =
  let disabled := [SetEnabled "process_button" false;
                   SetEnabled "file_button" false] in
  match selected_files mw with
  | [] => (Ok None, s)
  | _ :: _ =>
      match parse_max_length (max_length_input_text mw) with
      | Raised e => (Raised e, with_trace s (world s) disabled)
      | Ok n =>
          match KoboldAPICore_new (api_url_text mw) (world s) with
          | (Some e, w1) => (Raised e, with_trace s w1 disabled)
          | (None, w1) =>
              (Ok (Some (ProcessingThread_init
                           {| instruction := instruction_combo_currentText mw;
                              system_instruction := system_instruction_text mw;
                              max_length := n;
                              core := {| api_url := api_url_text mw |};
                              image_processor := {| max_dimension := 384 |} |}
                           (selected_files mw))),
               with_trace s w1
                 (disabled ++
                  [Print "-----------------------------------------------------------------";
                   Print "*** Processing... "; ThreadStart]))
          end
      end
  end.
Proof.
  unfold process_files.
  destruct (selected_files mw) as [|f l]; [reflexivity|].
  unfold bind at 1 2 3. unfold log at 1 2, eval. simpl.
  destruct (parse_max_length (max_length_input_text mw)) as [n|e]; simpl.
  2:{ unfold with_trace. simpl. now rewrite <- app_assoc. }
  unfold bind at 1. rewrite LLMProcessor_init_unfold. simpl.
  destruct (KoboldAPICore_new _ (world s)) as [[e|] w1]; simpl.
  - unfold with_trace. simpl. now rewrite app_nil_r, <- app_assoc.
  - unfold bind, log, ret, with_trace. simpl.
    now rewrite <- !app_assoc.
Qed.

Lemma process_files_started (mw : MainWindow) (s s' : State)
    (th : ProcessingThread) :
  process_files mw s = (Ok (Some th), s') ->
  parse_max_length (max_length_input_text mw)
  = Ok (max_length (processor th)) /\
  files th = selected_files mw /\ selected_files mw <> [].
Proof.
  rewrite process_files_unfold.
  destruct (selected_files mw) as [|f l] eqn:Hsel; [discriminate|].
  destruct (parse_max_length (max_length_input_text mw)) as [n|e];
    [|discriminate].
  destruct (KoboldAPICore_new _ (world s)) as [[e|] w1]; [discriminate|].
  intros [= <- _]. done.
Qed.

(** C6, as the code has it: the output length limit of a run that is
    started is a non-negative integer, and it is zero exactly when the
    input is one or more zero digits; other inputs give a positive
    limit. *)
Theorem max_length_nonnegative (mw : MainWindow) (s s' : State)
    (th : ProcessingThread) :
  process_files mw s = (Ok (Some th), s') ->
  let n := max_length (processor th) in
  let t := max_length_input_text mw in
  0 <= n /\
  (n = 0 <-> t <> ""%string /\ zeros_only t = true) /\
  (zeros_only t = false -> 0 < n).
Proof.
  intros Hrun n t.
  destruct (process_files_started mw s s' th Hrun) as (Hparse & _).
  destruct (parse_max_length_value _ _ Hparse) as [Hge Hzero].
  fold n t in Hzero, Hge.
  split; [exact Hge|]. split; [exact Hzero|].
  intros Hz. destruct (Z.eq_dec n 0) as [H0|H0]; [|lia].
  apply Hzero in H0 as [_ H0]. congruence.
Qed.

Lemma exceeds_limit_short (limit digits : nat) :
  (digits <= 640)%nat -> exceeds_limit limit digits = false.
Proof.
  intros Hle. unfold exceeds_limit.
  destruct (Nat.ltb_spec 640 digits); [lia | reflexivity].
Qed.

(** C7: "256" passes [isdigit] and [int] converts it to 256; "abc" does
    not pass, and the default 256 is taken.  With either input and a
    selection, [process_files] starts the worker with the limit 256,
    provided the server object can be built.  In general the limit of a
    started worker is what [int] makes of the input when the input
    passes [isdigit], and 256 when it does not. *)
Theorem max_length_examples (mw : MainWindow) (s : State) :
  selected_files mw <> [] ->
  fst (KoboldAPICore_new (api_url_text mw) (world s)) = None ->
  max_length_input_text mw = "256"%string \/
  max_length_input_text mw = "abc"%string ->
  (exists th s',
     process_files mw s = (Ok (Some th), s') /\
     max_length (processor th) = 256 /\
     files th = selected_files mw) /\
  (Str.isdigit "256" = true /\ int_ int_max_str_digits "256" = Ok 256) /\
  Str.isdigit "abc" = false /\
  (forall mw' s0 th' s0',
      process_files mw' s0 = (Ok (Some th'), s0') ->
      let t := max_length_input_text mw' in
      if Str.isdigit t
      then int_ int_max_str_digits t = Ok (max_length (processor th'))
      else max_length (processor th') = 256).
Proof.
  intros Hsel Hcore Htext.
  assert (H256 : int_ int_max_str_digits "256" = Ok 256).
  { unfold int_. now rewrite exceeds_limit_short by (simpl; lia). }
  split; [|split; [split; [reflexivity | exact H256]|split; [reflexivity|]]].
  - rewrite process_files_unfold.
    destruct (selected_files mw) as [|f l]; [done|].
    destruct (KoboldAPICore_new _ (world s)) as [[e|] w1]; [discriminate|].
    destruct Htext as [-> | ->]; unfold parse_max_length; simpl;
      rewrite ?H256; eauto.
  - intros mw' s0 th' s0' Hrun t.
    destruct (process_files_started mw' s0 s0' th' Hrun) as (Hparse & _).
    unfold parse_max_length in Hparse. fold t in Hparse.
    destruct (Str.isdigit t); [exact Hparse | now injection Hparse].
Qed.

End Facts.

(** * Every run *)

Section RunFacts.
Context {env : Environment}.
Local Open Scope py_scope.
Local Open Scope list_scope.

(** Splits the goal along the ways one iteration of the loop can go:
    which collaborator raises, whether there is a text, and how saving
    it ends. *)
Ltac iteration_cases self i f s :=
  rewrite (run_body_unfold self i f s), (process_file_unfold (processor self) f s);
  simpl;
  destruct (process_image (image_processor (processor self)) f (world s))
    as [[[?img ?out]|?e] ?w1]; simpl;
  [ match goal with
    | |- context [wrap_and_generate ?c ?a ?w] =>
        destruct (wrap_and_generate c a w) as [[?r|?e] ?w2]; simpl
    end;
    [ match goal with
      | |- context [truthy ?x] =>
          destruct (truthy x) as [?t|] eqn:?Htruthy; simpl
      end;
      [ rewrite save_result_unfold; simpl;
        match goal with
        | |- context [os_open_w ?q ?w] =>
            destruct (os_open_w q w) as [[?e|] ?w3]; simpl
        end;
        [ | match goal with
            | |- context [os_write ?q ?x ?w] =>
                destruct (os_write q x w) as [[[?e ?n]|] ?w4]; simpl
            end ]
      | ]
    | ]
  | ].

Lemma truthy_nonempty (r : option string) (t : string) :
  truthy r = Some t -> t <> ""%string.
Proof.
  destruct r as [x|]; simpl; [|discriminate].
  destruct (String.eqb_spec x ""); [discriminate|]. now intros [= <-].
Qed.

Lemma run_trace (self : ProcessingThread) (s : State) :
  trace (snd (run self s)) = trace s ++ run_events self s.
Proof.
  unfold run_events. rewrite run_unfold. simpl.
  destruct (loop_extends self (files self) 0 (snd (ask time_time s)))
    as [evs Htr].
  rewrite ask_trace in Htr.
  destruct (for_enumerate 0 (files self) (run_body self) _) as [[[]|e] s1];
    simpl in *; rewrite Htr, <- app_assoc, list.drop_app_length; reflexivity.
Qed.

(** A relation between states that every step of [run] respects holds
    between the start and the end of [run]. *)
Lemma run_preserves (R : State -> State -> Prop) (self : ProcessingThread) :
  (forall s, R s s) ->
  (forall a b c, R a b -> R b c -> R a c) ->
  (forall s, R s (snd (ask time_time s))) ->
  (forall i f s, R s (snd (run_body self i f s))) ->
  (forall s, R s (snd (emit finished s))) ->
  (forall s m, R s (snd (emit (error m) s))) ->
  forall s, R s (snd (run self s)).
Proof.
  intros Hrefl Htrans Hask Hbody Hfin Herr s.
  assert (Hloop : forall l i s0,
             R s0 (snd (for_enumerate i l (run_body self) s0))).
  { induction l as [|x l IH]; intros i s0; [apply Hrefl|].
    rewrite for_enumerate_cons. specialize (Hbody i x s0).
    destruct (run_body self i x s0) as [[[]|e] s1]; simpl in *; [|exact Hbody].
    exact (Htrans _ _ _ Hbody (IH (i + 1) s1)). }
  rewrite run_unfold. simpl.
  specialize (Hloop (files self) 0 (snd (ask time_time s))).
  destruct (for_enumerate 0 (files self) (run_body self) _) as [[[]|e] s1];
    simpl in *.
  - exact (Htrans _ _ _ (Hask s) (Htrans _ _ _ Hloop (Hfin s1))).
  - exact (Htrans _ _ _ (Hask s) (Htrans _ _ _ Hloop (Herr s1 (exc_str e)))).
Qed.

(** A property of event lists that holds of nothing, of two lists put
    together, of the events of any iteration and of a terminal
    notification holds of the events of [run]. *)
Lemma run_events_have (P : list Event -> Prop) (self : ProcessingThread) :
  P [] ->
  (forall a b, P a -> P b -> P (a ++ b)) ->
  (forall i f s, adds P s (snd (run_body self i f s))) ->
  P [Emit finished] ->
  (forall m, P [Emit (error m)]) ->
  forall s, P (run_events self s).
Proof.
  intros Hnil Happ Hbody Hfin Herr s.
  assert (H : adds P s (snd (run self s))).
  { apply run_preserves; clear s.
    - intros s. exists []. now rewrite app_nil_r.
    - intros a b c (e1 & H1 & P1) (e2 & H2 & P2). exists (e1 ++ e2).
      rewrite H2, H1, app_assoc. auto.
    - intros s. exists []. now rewrite ask_trace, app_nil_r.
    - exact Hbody.
    - intros s. now exists [Emit finished].
    - intros s m. now exists [Emit (error m)]. }
  destruct H as (evs & Htr & HP).
  unfold run_events. now rewrite Htr, list.drop_app_length.
Qed.

(** Either every iteration's [process_file] returns, or there is a
    first one that raises. *)
Lemma loop_outcome (self : ProcessingThread) (l : list string) :
  forall (i : Z) (s : State),
    (forall k f s_k,
        l !! k = Some f ->
        loop_state (run_body self) i l k s = Some s_k ->
        exists r, fst (process_file (processor self) f s_k) = Ok r) \/
    (exists k f s_k e,
        l !! k = Some f /\
        loop_state (run_body self) i l k s = Some s_k /\
        fst (process_file (processor self) f s_k) = Raised e).
Proof.
  induction l as [|x l IH]; intros i s.
  { left. intros k f s_k Hk. destruct k; discriminate Hk. }
  destruct (run_body_events self i x s) as (evs & _ & _ & _ & _ & Hout).
  destruct (run_body self i x s) as [[[]|e] s1] eqn:Hbody; simpl in Hout.
  - destruct Hout as [_ Hok].
    destruct (IH (i + 1) s1) as [Hall | (k & f & s_k & e & Hk & Hs & He)].
    + left. intros [|k] f s_k Hk Hs; simpl in Hk, Hs.
      * injection Hk as <-. injection Hs as <-. exact Hok.
      * rewrite Hbody in Hs. exact (Hall k f s_k Hk Hs).
    + right. exists (S k), f, s_k, e. simpl. rewrite Hbody. auto.
  - right. exists O, x, s, e. simpl. tauto.
Qed.

(** The two shapes of a run. *)
Lemma run_shapes (self : ProcessingThread) (s : State) :
  let N := List.length (files self) in
  (all_succeed self s /\
   exists evs,
     run_events self s = evs ++ [Emit finished] /\
     errors_of evs = [] /\ completions_of evs = [] /\
     processed evs = files self /\
     progress_of evs = progress_run 0 N (Z.of_nat N)) \/
  (exists k e evs,
     raises_at self s k e /\
     run_events self s = evs ++ [Emit (error (exc_str e))] /\
     errors_of evs = [] /\ completions_of evs = [] /\
     processed evs = take (S k) (files self) /\
     progress_of evs = progress_run 0 k (Z.of_nat N)).
Proof.
  intros N.
  destruct (loop_outcome self (files self) 0 (snd (ask time_time s)))
    as [Hall | (k & f & s_k & e & Hk & Hs & He)].
  - left. split; [exact Hall|].
    destruct (run_all_succeed self s Hall) as (evs & Htr & Hp & Hpr & Herr & Hc).
    exists evs. unfold run_events.
    rewrite Htr, list.drop_app_length. auto.
  - right.
    assert (Hraise : raises_at self s k e) by (exists f, s_k; auto).
    destruct (loop_raises self k (files self) 0 _ s_k f e Hk Hs He)
      as (evs & Hres & Htr & Hp & Hproc & Herr & Hc).
    exists k, e, evs. split; [exact Hraise|].
    unfold run_events. rewrite run_unfold. simpl.
    destruct (for_enumerate 0 (files self) (run_body self) _) as [[[]|e'] s1];
      simpl in *; [discriminate|].
    injection Hres as ->.
    rewrite Htr, ask_trace, <- app_assoc, list.drop_app_length. auto.
Qed.

(** X1: as long as what the collaborators raise are instances of
    [Exception], which is what the exceptions of this development stand
    for, [run] does not raise.  It returns the thread with [start_time]
    set, and what it added to the trace ends in one terminal
    notification: [finished] when every call of [process_file]
    returned, [error] with the text of the exception when one raised.
    No other [finished] or [error] occurs, and the files entered are
    the first files of the list, in order. *)
Theorem run_outcome (self : ProcessingThread) (s : State) :
  (exists self',
     fst (run self s) = Ok self' /\
     processor self' = processor self /\ files self' = files self /\
     start_time self' = Some (fst (time_time (world s)))) /\
  trace (snd (run self s)) = trace s ++ run_events self s /\
  ((all_succeed self s /\
    exists evs,
      run_events self s = evs ++ [Emit finished] /\
      errors_of evs = [] /\ completions_of evs = [] /\
      processed evs = files self) \/
   (exists k e evs,
      raises_at self s k e /\
      run_events self s = evs ++ [Emit (error (exc_str e))] /\
      errors_of evs = [] /\ completions_of evs = [] /\
      processed evs = take (S k) (files self))).
Proof.
  split; [|split; [apply run_trace|]].
  - rewrite run_unfold. simpl.
    destruct (for_enumerate 0 (files self) (run_body self) _) as [[[]|e] s1];
      simpl; eauto 10.
  - destruct (run_shapes self s)
      as [(Hall & evs & H) | (k & e & evs & Hr & H)].
    + left. split; [exact Hall|]. exists evs. tauto.
    + right. exists k, e, evs. tauto.
Qed.

(** X2: the progress notifications of a run are (1, N), (2, N), ...,
    (k, N) for some k <= N, N the number of files: the total is the same
    in all of them and is not zero, and the current count goes up by one
    from 1 and never passes the total. *)
Theorem run_progress (self : ProcessingThread) (s : State) :
  let N := List.length (files self) in
  exists k : nat,
    (k <= N)%nat /\
    progress_of (run_events self s)
    = map (fun j => (Z.of_nat j, Z.of_nat N)) (seq 1 k) /\
    Forall (fun p => 1 <= fst p <= snd p /\ snd p = Z.of_nat N /\ snd p <> 0)
      (progress_of (run_events self s)).
Proof.
  intros N.
  assert (Hcut : forall evs (sig : Signal),
             (sig = finished \/ exists m, sig = error m) ->
             progress_of (evs ++ [Emit sig]) = progress_of evs).
  { intros evs sig Hsig. unfold progress_of. rewrite omap_app.
    destruct Hsig as [-> | [m ->]]; simpl; apply app_nil_r. }
  assert (Hk : exists k : nat,
             (k <= N)%nat /\
             progress_of (run_events self s) = progress_run 0 k (Z.of_nat N)).
  { destruct (run_shapes self s)
      as [(_ & evs & -> & _ & _ & _ & Hp)
         | (k & e & evs & (f & s_k & Hf & _) & -> & _ & _ & _ & Hp)].
    - exists N. rewrite Hcut by auto. auto.
    - exists k. rewrite Hcut by eauto. split; [|exact Hp].
      apply lookup_lt_Some in Hf. fold N in Hf. lia. }
  destruct Hk as (k & Hle & Hp). exists k.
  rewrite Hp, progress_run_0. repeat split; try assumption.
  apply List.Forall_forall. intros [c t] Hin.
  apply List.in_map_iff in Hin as (j & [= <- <-] & Hj).
  apply List.in_seq in Hj. simpl. lia.
Qed.

Ltac show_adds :=
  unfold adds, with_trace; simpl; rewrite <- ?app_assoc; simpl;
  eexists; split; [reflexivity|]; simpl.

(** X3: every text a run hands to the result observers is non-empty;
    the run opens a result file once for each of these texts, whether or
    not saving succeeds, and never announces more texts than it reports
    files. *)
Theorem run_results (self : ProcessingThread) (s : State) :
  let evs := run_events self s in
  Forall (fun t => t <> ""%string) (results_of evs) /\
  List.length (opened evs) = List.length (results_of evs) /\
  (List.length (results_of evs) <= List.length (progress_of evs))%nat.
Proof.
  apply (run_events_have
           (fun evs =>
              Forall (fun t => t <> ""%string) (results_of evs) /\
              List.length (opened evs) = List.length (results_of evs) /\
              (List.length (results_of evs)
               <= List.length (progress_of evs))%nat)).
  - repeat split; constructor.
  - intros a b (Ha1 & Ha2 & Ha3) (Hb1 & Hb2 & Hb3).
    unfold results_of, opened, progress_of in *.
    rewrite !omap_app, !List.length_app, Forall_app. repeat split; auto; lia.
  - intros i f s0. iteration_cases self i f s0; show_adds;
      repeat split; repeat constructor;
      eauto using truthy_nonempty.
  - repeat split; constructor.
  - intros m. repeat split; constructor.
Qed.

Lemma ends_with_app (r suffix : string) :
  ends_with suffix (r ++ suffix)%string = true.
Proof.
  unfold ends_with. rewrite length_app.
  replace (String.length r + String.length suffix - String.length suffix)%nat
    with (String.length r) by lia.
  rewrite drop_app_length, String.eqb_refl, andb_true_r.
  apply Nat.leb_le. lia.
Qed.

(** X4: a run opens and writes only paths that end in ".txt", and the
    file system, which is keyed by the spelling of the path, keeps what
    it held at every path that does not end in ".txt".  A selected file
    whose own path ends in ".txt" is not protected by this. *)
Theorem run_only_txt (self : ProcessingThread) (s : State) :
  Forall (fun p => ends_with ".txt" p = true) (file_ops (run_events self s)) /\
  forall q, ends_with ".txt" q = false ->
            fs (snd (run self s)) !! q = fs s !! q.
Proof.
  split.
  - apply (run_events_have
             (fun evs => Forall (fun p => ends_with ".txt" p = true)
                           (file_ops evs))).
    + constructor.
    + intros a b Ha Hb. unfold file_ops in *.
      rewrite omap_app, Forall_app. auto.
    + intros i f s0. iteration_cases self i f s0; show_adds;
        repeat constructor; apply ends_with_app.
    + constructor.
    + intros m. constructor.
  - apply (run_preserves
             (fun a b => forall q, ends_with ".txt" q = false ->
                                   fs b !! q = fs a !! q)).
    + reflexivity.
    + intros a b c Hab Hbc q Hq. now rewrite Hbc, Hab.
    + intros s0 q _. unfold ask. now destruct (time_time (world s0)).
    + intros i f s0 q Hq.
      assert (Hne : forall out, txt_output_path out <> q).
      { intros out <-. unfold txt_output_path in Hq.
        rewrite ends_with_app in Hq. discriminate. }
      iteration_cases self i f s0; try reflexivity;
        now rewrite lookup_insert_ne.
    + reflexivity.
    + reflexivity.
Qed.

Lemma plain_ext_parts (pf : Platform) (e : string) :
  plain_ext pf e = true ->
  Str.contains extsep e = false /\
  Str.contains (sep pf) e = false /\
  forall a, altsep pf = Some a -> Str.contains a e = false.
Proof.
  unfold plain_ext. intros H.
  apply andb_true_iff in H as [H Halt].
  apply andb_true_iff in H as [Hdot Hsep].
  apply negb_true_iff in Hdot, Hsep.
  repeat split; try assumption.
  intros a Ha. rewrite Ha in Halt. now apply negb_true_iff in Halt.
Qed.

Lemma txt_output_path_join (r e : string) :
  has_name os_path r = true -> plain_ext os_path e = true ->
  txt_output_path (r ++ String extsep e)%string = (r ++ ".txt")%string.
Proof.
  intros Hname He. destruct (plain_ext_parts _ _ He) as (Hdot & Hsep & Halt).
  unfold txt_output_path.
  now rewrite (splitext_join os_path r e Hname Hdot Hsep Halt).
Qed.



(** C4, as the code has it.  The result file of a source file is named
    after the output path that the image library returns for it.  When
    that output path has the base name of the source path (as it has
    when it is the source path itself), and the last part of this base
    name is not made of dots alone, the iteration works on one file
    only, the base name followed by ".txt": [os.path.splitext] cuts this
    path into the base name of the source and the extension ".txt", it
    is the only path opened or changed, and it holds the text when the
    server gave one and saving met no fault.  The extension of the
    source plays no part: any extension put on the base name leads to
    the same path. *)
Theorem result_path_of_source (self : ProcessingThread) (i : Z) (f : string)
    (s : State) (img : Image) (out : string) (w1 : World) :
  process_image (image_processor (processor self)) f (world s)
  = (Ok (img, out), w1) ->
  fst (splitext os_path out) = fst (splitext os_path f) ->
  has_name os_path (fst (splitext os_path f)) = true ->
  let root := fst (splitext os_path f) in
  let txt := (root ++ ".txt")%string in
  let s' := snd (run_body self i f s) in
  f = (root ++ snd (splitext os_path f))%string /\
  splitext os_path txt = (root, ".txt"%string) /\
  (exists evs,
     trace s' = trace s ++ evs /\ Forall (fun p => p = txt) (file_ops evs)) /\
  (forall q, q <> txt -> fs s' !! q = fs s !! q) /\
  (forall text w2,
     wrap_and_generate (core (processor self))
       (generate_args (processor self) img) w1 = (Ok (Some text), w2) ->
     text <> ""%string ->
     write_fails txt text w2 = false ->
     fs s' !! txt = Some text) /\
  (forall e, plain_ext os_path e = true ->
             txt_output_path (root ++ String extsep e)%string = txt).
Proof.
  intros Himg Hroot Hname root txt s'.
  assert (Hout : txt_output_path out = txt).
  { unfold txt_output_path. now rewrite Hroot. }
  assert (Hplain : plain_ext os_path "txt" = true).
  { unfold plain_ext. destruct os_path; reflexivity. }
  split; [exact (proj1 (splitext_parts os_path f))|].
  split.
  { destruct (plain_ext_parts _ _ Hplain) as (Hd & Hs & Ha).
    exact (splitext_join os_path root "txt" Hname Hd Hs Ha). }
  subst s'.
  rewrite run_body_unfold, process_file_unfold. simpl. rewrite Himg. simpl.
  split; [|split; [|split]].
  - destruct (wrap_and_generate _ _ w1) as [[r|e] w2]; simpl.
    2:{ eexists. split; [reflexivity|]. constructor. }
    destruct (truthy r) as [t|]; simpl.
    2:{ unfold with_trace. simpl. rewrite <- app_assoc.
        eexists. split; [reflexivity|]. constructor. }
    rewrite save_result_unfold, Hout. simpl.
    destruct (os_open_w txt w2) as [[e|] w3]; simpl.
    { unfold with_trace. simpl. rewrite <- !app_assoc.
      eexists. split; [reflexivity|]. repeat constructor. }
    destruct (os_write txt t w3) as [[[e n]|] w4]; simpl;
      unfold with_trace; simpl; rewrite <- !app_assoc;
      eexists; (split; [reflexivity|]); repeat constructor.
  - intros q Hq.
    destruct (wrap_and_generate _ _ w1) as [[r|e] w2]; simpl; [|reflexivity].
    destruct (truthy r) as [t|]; simpl; [|reflexivity].
    rewrite save_result_unfold, Hout. simpl.
    destruct (os_open_w txt w2) as [[e|] w3]; simpl; [reflexivity|].
    destruct (os_write txt t w3) as [[[e n]|] w4]; simpl;
      now rewrite lookup_insert_ne.
  - intros text w2 Hgen Hne Hfine. rewrite Hgen. cbv beta iota.
    rewrite (truthy_Some text Hne). simpl.
    rewrite save_result_unfold, Hout. simpl.
    unfold write_fails in Hfine.
    destruct (os_open_w txt w2) as [[e|] w3]; [discriminate|].
    destruct (os_write txt text w3) as [[[e n]|] w4]; [discriminate|].
    simpl. apply lookup_insert_eq.
  - intros e He. now apply txt_output_path_join.
Qed.

End RunFacts.

(** * The limit field and the result file *)

Section InputFacts.
Context {env : Environment}.
Local Open Scope list_scope.

Lemma decimal_value_uint (u : Decimal.uint) :
  forall acc : nat,
    Str.decimal_value (Z.of_nat acc) (DecimalString.NilEmpty.string_of_uint u)
    = Z.of_nat (Nat.of_uint_acc u acc).
Proof.
  induction u; intros acc;
    cbn [Nat.of_uint_acc DecimalString.NilEmpty.string_of_uint
           Str.decimal_value];
    try reflexivity;
    rewrite <- IHu, Nat.tail_mul_spec; f_equal;
    match goal with
    | |- context [nat_of_ascii ?c] =>
        let v := eval vm_compute in (nat_of_ascii c) in
        change (nat_of_ascii c) with v
    end; lia.
Qed.

Lemma all_decimal_uint (u : Decimal.uint) :
  Str.all_chars Str.is_decimal_char (DecimalString.NilEmpty.string_of_uint u)
  = true.
Proof. induction u; simpl; auto. Qed.

Lemma str_nat_decimal (n : nat) :
  Str.all_chars Str.is_decimal_char (str_nat n) = true /\
  str_nat n <> ""%string /\
  Str.decimal_value 0 (str_nat n) = Z.of_nat n.
Proof.
  unfold str_nat.
  pose proof (DecimalNat.Unsigned.of_to n) as Hof.
  pose proof (all_decimal_uint (Nat.to_uint n)) as Hall.
  pose proof (decimal_value_uint (Nat.to_uint n) 0) as Hval.
  unfold Nat.of_uint in Hof. rewrite Hof in Hval.
  change (Z.of_nat 0) with 0 in Hval.
  destruct (Nat.to_uint n) eqn:Hu;
    (split; [exact Hall|]; split; [discriminate | exact Hval]).
Qed.

Lemma all_chars_impl (f g : ascii -> bool) (t : string) :
  (forall c, f c = true -> g c = true) ->
  Str.all_chars f t = true -> Str.all_chars g t = true.
Proof.
  intros Hfg. induction t as [|c t IH]; simpl; [reflexivity|].
  intros H. apply andb_true_iff in H as [Hc Ht].
  now rewrite (Hfg c Hc), IH.
Qed.

Lemma decimal_isdigit (t : string) :
  Str.all_chars Str.is_decimal_char t = true -> t <> ""%string ->
  Str.isdigit t = true.
Proof.
  intros Hall Hne. destruct t as [|c t]; [done|].
  unfold Str.isdigit. revert Hall. apply all_chars_impl.
  intros a Ha. unfold Str.is_digit_char. now rewrite Ha.
Qed.

Lemma leading_digits_all (t : string) :
  Str.all_chars Str.is_decimal_char t = true ->
  leading_digits t = String.length t.
Proof.
  induction t as [|c t IH]; simpl; [reflexivity|].
  intros H. apply andb_true_iff in H as [-> Ht]. now rewrite IH.
Qed.

(** A non-empty run of decimal digits is converted, unless it is longer
    than the interpreter allows. *)
Lemma parse_decimal (t : string) :
  Str.all_chars Str.is_decimal_char t = true -> t <> ""%string ->
  (exceeds_limit int_max_str_digits (String.length t) = false ->
   parse_max_length t = Ok (Str.decimal_value 0 t)) /\
  (exceeds_limit int_max_str_digits (String.length t) = true ->
   exists e, parse_max_length t = Raised e /\
             exc_class e = "ValueError"%string).
Proof.
  intros Hall Hne. unfold parse_max_length, int_.
  rewrite (decimal_isdigit t Hall Hne), Hall, (leading_digits_all t Hall).
  split; intros ->.
  - destruct (String.eqb_spec t ""); [done | reflexivity].
  - eexists. split; reflexivity.
Qed.

Lemma exceeds_limit_less (limit a b : nat) :
  (a <= b)%nat -> exceeds_limit limit b = false ->
  exceeds_limit limit a = false.
Proof.
  unfold exceeds_limit. intros Hle Hb.
  destruct (Nat.ltb_spec 640 a); [|reflexivity].
  destruct (Nat.ltb_spec 0 limit); [|reflexivity].
  destruct (Nat.ltb_spec limit a); [|reflexivity].
  destruct (Nat.ltb_spec 640 b); [|lia].
  destruct (Nat.ltb_spec limit b); [discriminate | lia].
Qed.

(** X6: a number that is not negative, typed in decimal, is the limit:
    the conversion gives back the number whose numeral was typed, as
    long as the numeral has no more digits than the interpreter
    converts (640 digits always pass, and any number with the limit
    off); a longer numeral raises [ValueError].  A zero in front of a
    run of digits does not change what the conversion gives, when the
    longer text is still within the limit. *)
Theorem parse_max_length_numeral (n : nat) :
  let digits := String.length (str_nat n) in
  (exceeds_limit int_max_str_digits digits = false ->
   parse_max_length (str_nat n) = Ok (Z.of_nat n)) /\
  ((digits <= 640)%nat \/ int_max_str_digits = O \/
   (digits <= int_max_str_digits)%nat ->
   exceeds_limit int_max_str_digits digits = false) /\
  (exceeds_limit int_max_str_digits digits = true ->
   exists e, parse_max_length (str_nat n) = Raised e /\
             exc_class e = "ValueError"%string) /\
  forall t,
    Str.all_chars Str.is_decimal_char t = true -> t <> ""%string ->
    exceeds_limit int_max_str_digits (S (String.length t)) = false ->
    parse_max_length (String "0" t) = parse_max_length t.
Proof.
  intros digits.
  destruct (str_nat_decimal n) as (Hall & Hne & Hval).
  destruct (parse_decimal (str_nat n) Hall Hne) as [Hok Hraise].
  split; [|split; [|split]].
  - intros Hlim. now rewrite Hok, Hval.
  - unfold exceeds_limit. intros [H | [-> | H]].
    + destruct (Nat.ltb_spec 640 digits); [lia | reflexivity].
    + now rewrite andb_false_r.
    + destruct (Nat.ltb_spec int_max_str_digits digits); [lia|].
      now rewrite andb_false_r.
  - exact Hraise.
  - intros t Ht Htne Hlim.
    destruct (parse_decimal t Ht Htne) as [Hokt _].
    destruct (parse_decimal (String "0" t)) as [Hok0 _];
      [exact Ht | discriminate |].
    rewrite Hok0 by exact Hlim.
    rewrite Hokt; [reflexivity|].
    apply (exceeds_limit_less _ _ (S (String.length t))); [lia | exact Hlim].
Qed.

Lemma ascii_digit_decimal (c : ascii) :
  (nat_of_ascii c <? 128)%nat = true -> Str.is_digit_char c = true ->
  Str.is_decimal_char c = true.
Proof.
  unfold Str.is_digit_char. intros Hlt Hd.
  apply Nat.ltb_lt in Hlt.
  destruct (Str.is_decimal_char c); [reflexivity|]. simpl in Hd.
  apply orb_true_iff in Hd as [Hd | Hd];
    [apply orb_true_iff in Hd as [Hd | Hd]|];
    apply Nat.eqb_eq in Hd; lia.
Qed.

Lemma ascii_isdigit_decimal (t : string) :
  is_ascii t = true -> Str.isdigit t = true ->
  Str.all_chars Str.is_decimal_char t = true /\ t <> ""%string.
Proof.
  intros Hascii Hdigit. split; [|now intros ->].
  destruct t as [|c t]; [discriminate|].
  unfold Str.isdigit in Hdigit.
  revert Hascii Hdigit. generalize (String c t). clear.
  unfold is_ascii.
  induction s as [|c s IH]; simpl; [reflexivity|].
  intros Ha Hd. apply andb_true_iff in Ha as [Hc Ha].
  apply andb_true_iff in Hd as [Hdc Hd].
  rewrite (ascii_digit_decimal c Hc Hdc). simpl. now apply IH.
Qed.

(** X7: for an input of ASCII characters the conversion raises in one
    case only: the input is a run of digits longer than the interpreter
    converts.  Otherwise the limit is the decimal value when the input
    is one or more digits, and 256 for every other input: the empty
    input, a sign, a space, a decimal point. *)
Theorem parse_max_length_ascii (t : string) :
  is_ascii t = true ->
  let digits := Str.all_chars Str.is_decimal_char t && negb (String.eqb t "") in
  (digits = false -> parse_max_length t = Ok 256) /\
  (digits = true ->
   exceeds_limit int_max_str_digits (String.length t) = false ->
   parse_max_length t = Ok (Str.decimal_value 0 t)) /\
  (digits = true ->
   exceeds_limit int_max_str_digits (String.length t) = true ->
   exists e, parse_max_length t = Raised e /\
             exc_class e = "ValueError"%string).
Proof.
  intros Hascii digits. subst digits.
  destruct (Str.all_chars Str.is_decimal_char t) eqn:Hall; simpl.
  - destruct (String.eqb_spec t "") as [->|Hne]; simpl.
    + split; [reflexivity | split; discriminate].
    + destruct (parse_decimal t Hall Hne) as [Hok Hraise].
      split; [discriminate | split; auto].
  - split; [|split; discriminate]. intros _.
    unfold parse_max_length.
    destruct (Str.isdigit t) eqn:Hdigit; [|reflexivity].
    destruct (ascii_isdigit_decimal t Hascii Hdigit) as [Hall' _].
    congruence.
Qed.

(** When [int] refuses a text that passed [isdigit], the text holds a
    digit that is not a decimal digit or starts with more decimal digits
    than the interpreter converts. *)
Lemma parse_max_length_refused (t : string) (e : PyException) :
  parse_max_length t = Raised e ->
  exc_class e = "ValueError"%string /\
  Str.isdigit t = true /\
  (Str.all_chars Str.is_decimal_char t = false \/
   exceeds_limit int_max_str_digits (leading_digits t) = true).
Proof.
  unfold parse_max_length, int_.
  destruct (Str.isdigit t) eqn:Hdigit; [|discriminate].
  destruct (exceeds_limit _ _) eqn:Hlim.
  { intros [= <-]. auto. }
  destruct (Str.all_chars Str.is_decimal_char t) eqn:Hall; simpl.
  - destruct (String.eqb_spec t "") as [->|Hne]; [discriminate|].
    discriminate.
  - intros [= <-]. auto.
Qed.

(** X8: [process_files] raises in two ways and no other: [int] refuses
    the limit text (it passed [isdigit] and holds a digit that is not a
    decimal digit, or has too many digits), or building the
    [KoboldAPICore] raises.  Each of them makes it raise when files are
    selected.  Both buttons have been disabled by then and nothing else
    has been done in the window: no line printed, no worker started,
    the buttons not enabled again, the files as they were. *)
Theorem process_files_raises (mw : MainWindow) (s : State) :
  let t := max_length_input_text mw in
  let disabled := [SetEnabled "process_button" false;
                   SetEnabled "file_button" false] in
  (forall e s',
      process_files mw s = (Raised e, s') ->
      selected_files mw <> [] /\
      trace s' = trace s ++ disabled /\
      fs s' = fs s /\
      ((parse_max_length t = Raised e /\ world s' = world s /\
        exc_class e = "ValueError"%string /\ Str.isdigit t = true /\
        (Str.all_chars Str.is_decimal_char t = false \/
         exceeds_limit int_max_str_digits (leading_digits t) = true)) \/
       (exists n,
          parse_max_length t = Ok n /\
          KoboldAPICore_new (api_url_text mw) (world s)
          = (Some e, world s')))) /\
  (selected_files mw <> [] ->
   forall e,
     parse_max_length t = Raised e ->
     process_files mw s = (Raised e, with_trace s (world s) disabled)) /\
  (selected_files mw <> [] ->
   forall n e w1,
     parse_max_length t = Ok n ->
     KoboldAPICore_new (api_url_text mw) (world s) = (Some e, w1) ->
     process_files mw s = (Raised e, with_trace s w1 disabled)).
Proof.
  intros t disabled. rewrite process_files_unfold. fold t.
  destruct (selected_files mw) as [|f l].
  { split; [discriminate | split; done]. }
  destruct (parse_max_length t) as [n|e0] eqn:Hparse.
  - destruct (KoboldAPICore_new _ (world s)) as [[e0|] w1] eqn:Hnew.
    + split; [|split].
      * intros e s' [= <- <-]. repeat split; try done.
        right. exists n. auto.
      * discriminate.
      * intros _ n' e w' [= <-] [= <- <-]. reflexivity.
    + split; [discriminate | split; [discriminate|]].
      intros _ n' e w' _ [=].
  - split; [|split].
    + intros e s' [= <- <-]. repeat split; try done.
      left. destruct (parse_max_length_refused t e0 Hparse) as (? & ? & ?).
      auto.
    + intros _ e [= <-]. reflexivity.
    + discriminate.
Qed.

(** X9: [save_result] prints a line exactly when it returns False, and
    that line names the path and carries the text of the exception.
    When opening the file fails the file system stays as it was, so a
    result file from an earlier run keeps its text.  When the write
    fails after the file was opened, the earlier text is gone: the file
    holds the characters that were written before the fault. *)
Theorem save_result_failure (self : LLMProcessor) (text out : string)
    (s : State) :
  let path := txt_output_path out in
  let s' := snd (save_result self text out s) in
  exists evs,
    trace s' = trace s ++ evs /\
    ((fst (save_result self text out s) = Ok true /\ printed evs = []) \/
     (fst (save_result self text out s) = Ok false /\
      exists e,
        printed evs
        = [("Error saving to " ++ path ++ ": " ++ exc_str e)%string] /\
        ((fst (os_open_w path (world s)) = Some e /\ fs s' = fs s /\
          opened evs = [path] /\ file_ops evs = [path]) \/
         (fst (os_open_w path (world s)) = None /\
          exists n,
            fst (os_write path text (snd (os_open_w path (world s))))
            = Some (e, n) /\
            fs s' = <[path := Str.take n text]> (fs s))))).
Proof.
  intros path s'. subst s'. rewrite save_result_unfold. simpl. fold path.
  destruct (os_open_w path (world s)) as [[e|] w1]; simpl.
  { eexists. split; [reflexivity|]. right. split; [reflexivity|].
    exists e. split; [reflexivity|]. left. auto. }
  destruct (os_write path text w1) as [[[e n]|] w2]; simpl.
  - eexists. split; [reflexivity|]. right. split; [reflexivity|].
    exists e. split; [reflexivity|]. right. split; [reflexivity|].
    exists n. auto.
  - eexists. split; [reflexivity|]. left. auto.
Qed.

(** X10: two output paths with the same base name and different
    extensions share one result file.  Saved one after the other, the
    second text replaces the first, and no other file changes.  A path
    that already ends in ".txt" is its own result file. *)
Theorem same_base_overwrites (self : LLMProcessor) (r e1 e2 t1 t2 : string)
    (s s1 s2 : State) :
  has_name os_path r = true ->
  plain_ext os_path e1 = true ->
  plain_ext os_path e2 = true ->
  save_result self t1 (r ++ String extsep e1)%string s = (Ok true, s1) ->
  save_result self t2 (r ++ String extsep e2)%string s1 = (Ok true, s2) ->
  fs s1 !! (r ++ ".txt")%string = Some t1 /\
  fs s2 !! (r ++ ".txt")%string = Some t2 /\
  (forall q, q <> (r ++ ".txt")%string -> fs s2 !! q = fs s !! q) /\
  txt_output_path (r ++ ".txt")%string = (r ++ ".txt")%string.
Proof.
  intros Hname He1 He2 H1 H2.
  pose proof (save_result_content _ _ _ _ _ H1) as Hc1.
  pose proof (save_result_content _ _ _ _ _ H2) as Hc2.
  rewrite txt_output_path_join in Hc1, Hc2 by assumption.
  split; [exact Hc1|]. split; [exact Hc2|]. split.
  - intros q Hq.
    rewrite save_result_unfold in H1, H2. simpl in H1, H2.
    rewrite txt_output_path_join in H1, H2 by assumption.
    destruct (os_open_w _ (world s)) as [[e|] w1]; [discriminate|].
    destruct (os_write _ t1 w1) as [[[e n]|] w2]; [discriminate|].
    injection H1 as <-. simpl in H2.
    destruct (os_open_w _ w2) as [[e|] w3]; [discriminate|].
    destruct (os_write _ t2 w3) as [[[e n]|] w4]; [discriminate|].
    injection H2 as <-. simpl.
    now rewrite !lookup_insert_ne.
  - apply (txt_output_path_join r "txt" Hname).
    unfold plain_ext. destruct os_path; reflexivity.
Qed.

End InputFacts.

(** * The window *)

Section WindowFacts.
Context {env : Environment} {desk : Desktop}.
Local Open Scope list_scope.

Lemma same_but_bar_refl (w : Window) : same_but_bar w w.
Proof. repeat split. Qed.

Lemma same_but_bar_trans (a b c : Window) :
  same_but_bar a b -> same_but_bar b c -> same_but_bar a c.
Proof.
  unfold same_but_bar. intros (?&?&?&?&?) (?&?&?&?&?).
  repeat split; congruence.
Qed.

Lemma update_progress_returns (current total : Z) (w : Window) (s : State) :
  total <> 0 ->
  exists w', update_progress current total w s = (Ok tt, w', s) /\
             same_but_bar w w'.
Proof.
  intros Hne. unfold update_progress.
  destruct (Z.eqb_spec total 0); [done|].
  eexists. split; [reflexivity|]. repeat split.
Qed.

Lemma copy_to_clipboard_returns (text : string) (w : Window) (s : State) :
  exists s', copy_to_clipboard text w s = (Ok tt, w, s').
Proof.
  unfold copy_to_clipboard, lift, try_except, bind, ask, raise, ret, print, log.
  destruct (pyperclip_copy text (world s)) as [[e|] wd]; simpl; eauto.
Qed.

Lemma deliver_app (a b : list Signal) (w : Window) (s : State) :
  deliver (a ++ b) w s
  = match deliver a w s with
    | (Ok _, w', s') => deliver b w' s'
    | (Raised e, w', s') => (Raised e, w', s')
    end.
Proof.
  revert w s. induction a as [|sig a IH]; intros w s; [reflexivity|].
  simpl. unfold gbind.
  destruct (slot sig w s) as [[[[]|e] w1] s1]; [apply IH | reflexivity].
Qed.

(** The signals of the files never make a slot raise, and change
    nothing in the window but the progress bar. *)
Lemma deliver_file_signals (sigs : list Signal) :
  Forall file_signal sigs ->
  forall (w : Window) (s : State),
  exists w' s', deliver sigs w s = (Ok tt, w', s') /\ same_but_bar w w'.
Proof.
  induction 1 as [|sig sigs Hsig _ IH]; intros w s.
  { exists w, s. split; [reflexivity | apply same_but_bar_refl]. }
  simpl. unfold gbind.
  assert (Hslot : exists w1 s1, slot sig w s = (Ok tt, w1, s1) /\
                                same_but_bar w w1).
  { destruct sig as [c t | | m | t]; simpl in *; try done.
    - destruct (update_progress_returns c t w s Hsig) as (w1 & -> & Hw).
      eauto.
    - destruct (copy_to_clipboard_returns t w s) as (s1 & ->).
      exists w, s1. split; [reflexivity | apply same_but_bar_refl]. }
  destruct Hslot as (w1 & s1 & -> & Hw1).
  destruct (IH w1 s1) as (w2 & s2 & -> & Hw2).
  exists w2, s2. split; [reflexivity|].
  exact (same_but_bar_trans _ _ _ Hw1 Hw2).
Qed.

Lemma signals_of_files (evs : list Event) :
  errors_of evs = [] -> completions_of evs = [] ->
  Forall (fun p => snd p <> 0) (progress_of evs) ->
  Forall file_signal (signals evs).
Proof.
  induction evs as [|ev evs IH]; intros He Hc Hp; [constructor|].
  destruct ev as [| [c t| |m|t] | | | | | |]; simpl in *;
    try discriminate; try (now apply IH).
  - inversion Hp; subst. constructor; [assumption | now apply IH].
  - constructor; [exact I | now apply IH].
Qed.

Lemma progress_run_nonzero (k N : nat) :
  (k <= N)%nat ->
  Forall (fun p : Z * Z => snd p <> 0) (progress_run 0 k (Z.of_nat N)).
Proof.
  intros Hle. unfold progress_run. apply List.Forall_forall.
  intros [c t] Hin. apply List.in_map_iff in Hin as (j & [= <- <-] & Hj).
  apply List.in_seq in Hj. simpl. lia.
Qed.

Lemma run_returns (th : ProcessingThread) (s : State) :
  exists th',
    run th s = (Ok th', snd (run th s)) /\
    start_time th' = Some (fst (time_time (world s))).
Proof.
  rewrite run_unfold. simpl.
  destruct (for_enumerate 0 (files th) (run_body th) _) as [[[]|e] s1];
    simpl; eauto.
Qed.

(** What a run emits: the signals of its files, then one of the two
    terminal signals. *)
Lemma run_signals (th : ProcessingThread) (s : State) :
  exists sigs last,
    signals (run_events th s) = sigs ++ [last] /\
    Forall file_signal sigs /\
    ((last = finished /\ exists evs, run_events th s = evs ++ [Emit finished]) \/
     (exists m, last = error m /\
                exists evs, run_events th s = evs ++ [Emit (error m)])).
Proof.
  destruct (run_shapes th s)
    as [(_ & evs & Hev & He & Hc & _ & Hp)
       | (k & e & evs & (f & s_k & Hf & _) & Hev & He & Hc & _ & Hp)].
  - exists (signals evs), finished. rewrite Hev. unfold signals at 1.
    rewrite omap_app. split; [reflexivity|]. split.
    + apply signals_of_files; try assumption.
      rewrite Hp. now apply progress_run_nonzero.
    + left. eauto.
  - exists (signals evs), (error (exc_str e)). rewrite Hev.
    unfold signals at 1. rewrite omap_app. split; [reflexivity|]. split.
    + apply signals_of_files; try assumption.
      rewrite Hp. apply progress_run_nonzero.
      apply lookup_lt_Some in Hf. lia.
    + right. eauto.
Qed.

(** X11: when the worker of the window has run and its signals have
    reached their slots, no slot has raised, both buttons are enabled
    and the progress bar is at 0, whatever the collaborators and the
    clipboard did.  The label shows the number of selected files after a
    run that finished, and the text of the exception after one that
    failed; the fields of the form are as before. *)
Theorem thread_round_recovers (w : Window) (th : ProcessingThread)
    (s : State) :
  thread w = Some th ->
  exists w' s',
    thread_round w s = (Ok tt, w', s') /\
    process_button w' = true /\ file_button w' = true /\
    progress_bar w' = 0 /\ form w' = form w /\
    ((exists evs,
        run_events th s = evs ++ [Emit finished] /\
        files_label w'
        = selected_text (List.length (selected_files (form w)))) \/
     (exists evs m,
        run_events th s = evs ++ [Emit (error m)] /\
        files_label w' = ("Error: " ++ m)%string)).
Proof.
  intros Hth. unfold thread_round. rewrite Hth.
  destruct (run_returns th s) as (th' & -> & Hstart).
  unfold gbind, set_thread.
  destruct (run_signals th s) as (sigs & last & -> & Hsigs & Hlast).
  rewrite deliver_app.
  match goal with
  | |- context [deliver sigs ?w0 ?s0] =>
      destruct (deliver_file_signals sigs Hsigs w0 s0)
        as (w1 & s1 & -> & Hform & Hlabel & Hpb & Hfb & Hthread)
  end.
  simpl in Hform, Hlabel, Hpb, Hfb, Hthread.
  destruct Hlast as [[-> Hev] | (m & -> & Hev)]; simpl; unfold gbind.
  - unfold processing_finished, gbind, process_button_setEnabled,
      file_button_setEnabled, the_window, files_label_setText,
      progress_setValue. simpl.
    rewrite Hthread, Hstart, Hform.
    destruct (started (fst (time_time (world s)))).
    + unfold lift, ask, print, log. simpl.
      destruct (time_time (world s1)) as [now wd]. simpl.
      do 2 eexists. split; [reflexivity|]. simpl.
      repeat split; try assumption. left.
      destruct Hev as [evs Hev]. eauto.
    + unfold gret. do 2 eexists. split; [reflexivity|]. simpl.
      repeat split; try assumption. left.
      destruct Hev as [evs Hev]. eauto.
  - unfold processing_error, gbind, process_button_setEnabled,
      file_button_setEnabled, files_label_setText, progress_setValue. simpl.
    do 2 eexists. split; [reflexivity|]. simpl.
    repeat split; try assumption. right.
    destruct Hev as [evs Hev]. eauto.
Qed.

(** X12: when the dialog is cancelled [select_files] changes nothing
    in the window: an earlier selection stays, and so does the state of
    the button.  When files are chosen they replace the selection, the
    label shows their number and the process button is enabled, the rest
    of the window staying as it was; if [process_files] then returns, it
    has started a worker on exactly these files and disabled both
    buttons. *)
Theorem select_files_effect (w : Window) (s : State) :
  let chosen := fst (getOpenFileNames (world s)) in
  let s1 := snd (ask getOpenFileNames s) in
  (chosen = [] -> select_files w s = (Ok tt, w, s1)) /\
  (chosen <> [] ->
   exists w1,
     select_files w s = (Ok tt, w1, s1) /\
     selected_files (form w1) = chosen /\
     files_label w1 = selected_text (List.length chosen) /\
     process_button w1 = true /\
     file_button w1 = file_button w /\
     progress_bar w1 = progress_bar w /\
     thread w1 = thread w /\
     max_length_input_text (form w1) = max_length_input_text (form w) /\
     api_url_text (form w1) = api_url_text (form w) /\
     system_instruction_text (form w1) = system_instruction_text (form w) /\
     instruction_combo_currentText (form w1)
     = instruction_combo_currentText (form w) /\
     forall w2 s2,
       window_process_files w1 s1 = (Ok tt, w2, s2) ->
       exists th,
         thread w2 = Some th /\ files th = chosen /\ start_time th = None /\
         process_button w2 = false /\ file_button w2 = false).
Proof.
  intros chosen s1. subst chosen s1.
  unfold select_files, gbind, lift, ask.
  destruct (getOpenFileNames (world s)) as [[|f l] wd] eqn:Hdialog; simpl.
  { split; [reflexivity | done]. }
  split; [discriminate|]. intros _.
  eexists. split; [reflexivity|]. simpl. repeat split.
  intros w2 s2. unfold window_process_files. simpl.
  match goal with
  | |- context [process_files ?mw ?s0] =>
      pose proof (process_files_started mw s0) as Hstarted;
      destruct (process_files mw s0) as [[[th|]|e] s3] eqn:Hpf
  end; simpl.
  - intros [= <- <-]. simpl.
    destruct (Hstarted s3 th eq_refl) as (_ & Hfiles & _). simpl in Hfiles.
    exists th. repeat split; try assumption.
    rewrite process_files_unfold in Hpf. simpl in Hpf.
    destruct (parse_max_length _) in Hpf; [|discriminate].
    destruct (KoboldAPICore_new _ _) as [[e|] w3] in Hpf; [discriminate|].
    now injection Hpf as <- _.
  - rewrite process_files_unfold in Hpf. simpl in Hpf.
    destruct (parse_max_length _) in Hpf; [|discriminate].
    destruct (KoboldAPICore_new _ _) as [[e|] w3] in Hpf; discriminate.
  - discriminate.
Qed.

End WindowFacts.

(** * The properties at work in the scripted environment *)

Section Instances.
Local Open Scope list_scope.

#[local] Existing Instance Demo.env.

Ltac by_running := vm_compute; reflexivity.

(** Two files, both captioned. *)
Lemma run_reports_every_file_witness :
  let self := Demo.thread ["a.png"; "b.png"]%string in
  files self <> [] /\
  all_succeed self Demo.state0 /\
  exists evs,
    trace (snd (run self Demo.state0)) = trace Demo.state0 ++ evs ++ [Emit finished] /\
    progress_of evs = [(1, 2); (2, 2)] /\
    List.length (progress_of evs) = 2%nat /\
    completions_of evs = [] /\
    errors_of evs = [].
Proof.
  intros self.
  assert (Hne : files self <> []) by (intros H; discriminate H).
  assert (Hall : all_succeed self Demo.state0).
  { intros k f s_k Hk Hs. destruct k as [|[|k]]; vm_compute in Hk;
      [injection Hk as <- | injection Hk as <- | discriminate Hk];
      vm_compute in Hs; injection Hs as <-; eexists; by_running. }
  split; [exact Hne|]. split; [exact Hall|].
  exact (run_reports_every_file self Demo.state0 Hne Hall).
Defined.

(** The server cannot be reached for the second of three files. *)
Lemma run_stops_at_first_failure_witness :
  let w := {| Demo.clock := 0; Demo.unreachable := ["b.png"]%string;
              Demo.speechless := []; Demo.readonly := [];
              Demo.disk_full := [] |} in
  let self := Demo.thread ["a.png"; "b.png"; "c.png"]%string in
  let e := {| exc_class := "ConnectionError";
              exc_str := "server unreachable" |} in
  raises_at self (Demo.start w) 1 e /\
  exists evs,
    trace (snd (run self (Demo.start w)))
    = evs ++ [Emit (error "server unreachable")] /\
    errors_of evs = [] /\
    progress_of evs = [(1, 3)] /\
    completions_of evs = [] /\
    processed evs = ["a.png"; "b.png"]%string.
Proof.
  intros w self e.
  assert (Hraise : raises_at self (Demo.start w) 1 e).
  { exists "b.png"%string. eexists.
    split; [reflexivity|]. split; by_running. }
  split; [exact Hraise|].
  exact (run_stops_at_first_failure self (Demo.start w) 1 e Hraise).
Defined.

(** The result file of the first of two files cannot be opened. *)
Lemma persistence_failure_not_fatal_witness :
  let w := {| Demo.clock := 0; Demo.unreachable := [];
              Demo.speechless := []; Demo.readonly := ["a.txt"]%string;
              Demo.disk_full := [] |} in
  let self := Demo.thread ["a.png"; "b.png"]%string in
  let s := Demo.start w in
  let s_k := snd (ask time_time s) in
  let s1 := snd (process_file (processor self) "a.png" s_k) in
  arrives self 0 s = Some s_k /\
  process_file (processor self) "a.png" s_k
  = (Ok (Some "caption of a.png"%string, "a.png"%string), s1) /\
  write_fails (txt_output_path "a.png") "caption of a.png" (world s1) = true /\
  fst (save_result (processor self) "caption of a.png" "a.png" s1) = Ok false /\
  exists s2 evs,
    run_body self 0 "a.png" s_k = (Ok tt, s2) /\
    trace s2 = trace s1 ++ evs /\
    signals evs = [result_ready "caption of a.png"; progress 1 2] /\
    arrives self 1 s = Some s2.
Proof.
  intros w self s s_k s1.
  assert (H1 : arrives self 0 s = Some s_k) by by_running.
  assert (H2 : process_file (processor self) "a.png" s_k
               = (Ok (Some "caption of a.png"%string, "a.png"%string), s1))
    by by_running.
  assert (H3 : write_fails (txt_output_path "a.png") "caption of a.png"
                 (world s1) = true) by by_running.
  assert (Hne : "caption of a.png"%string <> ""%string)
    by (intros H; discriminate H).
  split; [exact H1|]. split; [exact H2|]. split; [exact H3|].
  destruct (persistence_failure_not_fatal self s s_k s1 0 "a.png"
              "caption of a.png" "a.png" eq_refl H1 H2 Hne H3)
    as (_ & Hfalse & s2 & evs & Hbody & Htr & Hsig & Hnext & _).
  split; [exact Hfalse|].
  exists s2, evs. repeat split; try assumption.
  exact (proj1 (Hnext "b.png"%string eq_refl)).
Defined.

(** A source path with a directory and an extension. *)
Example save_result_path_example :
  let s' := snd (save_result Demo.processor0 "a cat" "pics/photo.jpg" Demo.state0) in
  "pics/photo.jpg"%string = ("pics/photo" ++ ".jpg")%string /\
  has_name Posix "pics/photo" = true /\
  fs s' !! "pics/photo.txt"%string = Some "a cat"%string /\
  @txt_output_path Demo.env "pics/photo.png" = "pics/photo.txt"%string.
Proof.
  intros s'.
  destruct (save_result_path (env := Demo.env) Demo.processor0 "a cat"
              "pics/photo.jpg" Demo.state0)
    as (Hcut & _ & _ & _ & Hfile & Hany & _).
  split; [exact Hcut|].
  assert (Hname : has_name Posix "pics/photo" = true) by by_running.
  split; [exact Hname|].
  split.
  - apply Hfile. by_running.
  - apply (Hany "png"%string Hname); [by_running | by_running|].
    intros a Ha. discriminate Ha.
Defined.

(** C4 as stated fails twice over.  A file named "..." is saved as
    "....txt", in which [os.path.splitext] sees no extension.  And the
    result file is named after the output path of the image library:
    when that is elsewhere/zzz.jpg, the text for photo.jpg lands in
    elsewhere/zzz.txt. *)
Lemma result_path_counterexample :
  (let s' := snd (run (Demo.thread ["..."]%string) Demo.state0) in
   file_ops (trace s') = ["....txt"; "....txt"]%string /\
   fs s' !! "....txt"%string = Some "caption of ..."%string /\
   snd (splitext Posix "....txt") <> ".txt"%string) /\
  (let hinted := Demo.env_hint "elsewhere/zzz.jpg" in
   let s' := snd (@run hinted
                    (@ProcessingThread_init hinted Demo.processor0
                       ["photo.jpg"]%string)
                    (@Build_State hinted Demo.world0 ∅ [])) in
   @file_ops hinted (@trace hinted s')
   = ["elsewhere/zzz.txt"; "elsewhere/zzz.txt"]%string /\
   @fs hinted s' !! "elsewhere/zzz.txt"%string
   = Some "caption of photo.jpg"%string /\
   @fs hinted s' !! "photo.txt"%string = None /\
   fst (splitext Posix "elsewhere/zzz.txt")
   <> fst (splitext Posix "photo.jpg")).
Proof.
  split.
  - vm_compute. repeat split. intros H; discriminate H.
  - vm_compute. repeat split. intros H; discriminate H.
Defined.

(** photo.jpg in a directory, the image library handing back the path
    it was given. *)
Lemma result_path_of_source_witness :
  let self := Demo.thread ["pics/photo.jpg"]%string in
  let s' := snd (run_body self 0 "pics/photo.jpg" Demo.state0) in
  has_name Posix "pics/photo" = true /\
  splitext Posix "pics/photo.txt" = ("pics/photo"%string, ".txt"%string) /\
  (forall q, q <> "pics/photo.txt"%string ->
             fs s' !! q = fs Demo.state0 !! q) /\
  fs s' !! "pics/photo.txt"%string = Some "caption of pics/photo.jpg"%string.
Proof.
  intros self s'.
  assert (Hname : has_name Posix "pics/photo" = true) by by_running.
  destruct (result_path_of_source self 0 "pics/photo.jpg" Demo.state0
              "pics/photo.jpg"%string "pics/photo.jpg"
              (Demo.tick Demo.world0) eq_refl eq_refl Hname)
    as (_ & Hsplit & _ & Hother & Htext & _).
  split; [exact Hname|]. split; [exact Hsplit|]. split; [exact Hother|].
  apply (Htext "caption of pics/photo.jpg"%string
               (Demo.tick (Demo.tick Demo.world0))).
  - by_running.
  - intros H; discriminate H.
  - by_running.
Defined.

(** Saving twice to the same path. *)
Lemma save_result_overwrites_witness :
  let s1 := snd (save_result Demo.processor0 "a cat" "photo.jpg" Demo.state0) in
  let s2 := snd (save_result Demo.processor0 "a cat" "photo.jpg" s1) in
  save_result Demo.processor0 "a cat" "photo.jpg" Demo.state0 = (Ok true, s1) /\
  save_result Demo.processor0 "a cat" "photo.jpg" s1 = (Ok true, s2) /\
  fs s2 !! "photo.txt"%string = Some "a cat"%string /\
  fs s2 !! "photo.txt"%string <> Some "a cata cat"%string.
Proof.
  intros s1 s2.
  assert (H1 : save_result Demo.processor0 "a cat" "photo.jpg" Demo.state0
               = (Ok true, s1)) by by_running.
  assert (H2 : save_result Demo.processor0 "a cat" "photo.jpg" s1
               = (Ok true, s2)) by by_running.
  split; [exact H1|]. split; [exact H2|].
  destruct (save_result_overwrites (env := Demo.env) Demo.processor0
              "a cat" "photo.jpg" Demo.state0) as (_ & _ & Htwice).
  destruct (Htwice s1 s2 H1 H2) as [Hsame Hnot].
  split; [exact Hsame|].
  apply Hnot. intros H; discriminate H.
Defined.

(** C6 as stated fails: the input "0" is all digits, so it is
    converted, and the run is started with the limit 0. *)
Lemma max_length_zero :
  exists th s',
    @process_files Demo.env (Demo.window "0" ["a.png"]%string) Demo.state0
    = (Ok (Some th), s') /\
    max_length (processor th) = 0 /\
    ~ 0 < max_length (processor th).
Proof.
  do 2 eexists. split; [by_running|]. split; [reflexivity|].
  simpl. lia.
Defined.

(** The limit typed as "40". *)
Lemma max_length_nonnegative_witness :
  let mw := Demo.window "40" ["a.png"]%string in
  let th := @ProcessingThread_init Demo.env
              {| instruction := instruction_combo_currentText mw;
                 system_instruction := system_instruction_text mw;
                 max_length := 40;
                 core := {| api_url := api_url_text mw |};
                 image_processor := {| max_dimension := 384 |} |}
              ["a.png"]%string in
  process_files mw Demo.state0 = (Ok (Some th), snd (process_files mw Demo.state0)) /\
  0 <= max_length (processor th) /\
  0 < max_length (processor th).
Proof.
  intros mw th.
  assert (H : process_files mw Demo.state0 = (Ok (Some th), snd (process_files mw Demo.state0)))
    by by_running.
  split; [exact H|].
  destruct (max_length_nonnegative mw Demo.state0 _ th H) as (Hge & _ & Hpos).
  split; [exact Hge|]. apply Hpos. by_running.
Defined.

(** The two inputs of the example, and one that is not 256. *)
Lemma max_length_examples_witness :
  (exists th s',
      process_files (Demo.window "256" ["a.png"]%string) Demo.state0
      = (Ok (Some th), s') /\
      max_length (processor th) = 256 /\ files th = ["a.png"]%string) /\
  (exists th s',
      process_files (Demo.window "abc" ["a.png"]%string) Demo.state0
      = (Ok (Some th), s') /\
      max_length (processor th) = 256 /\ files th = ["a.png"]%string) /\
  (forall th s',
      process_files (Demo.window "40" ["a.png"]%string) Demo.state0
      = (Ok (Some th), s') ->
      max_length (processor th) = 40).
Proof.
  assert (Hsel : forall t,
             selected_files (Demo.window t ["a.png"]%string) <> [])
    by (intros t H; discriminate H).
  assert (Hcore : forall t,
             fst (KoboldAPICore_new
                    (api_url_text (Demo.window t ["a.png"]%string))
                    (world Demo.state0)) = None) by (intros t; reflexivity).
  split; [|split].
  - exact (proj1 (max_length_examples (Demo.window "256" ["a.png"]%string)
                    Demo.state0 (Hsel _) (Hcore _) (or_introl eq_refl))).
  - exact (proj1 (max_length_examples (Demo.window "abc" ["a.png"]%string)
                    Demo.state0 (Hsel _) (Hcore _) (or_intror eq_refl))).
  - intros th s' Hrun.
    destruct (max_length_examples (Demo.window "256" ["a.png"]%string)
                Demo.state0 (Hsel _) (Hcore _) (or_introl eq_refl))
      as (_ & _ & _ & Hlaw).
    specialize (Hlaw (Demo.window "40" ["a.png"]%string) Demo.state0 th s'
                  Hrun).
    assert (Hconv : int_ 4300 "40" = Ok (max_length (processor th)))
      by exact Hlaw.
    assert (H40 : int_ 4300 "40" = Ok 40) by by_running.
    congruence.
Defined.

(** The request for one file. *)
Lemma process_file_requests_witness :
  exists evs,
    trace (snd (process_file Demo.processor0 "a.png" Demo.state0))
    = trace Demo.state0 ++ CallProcessImage {| max_dimension := 384 |} "a.png" :: evs /\
    processed evs = [].
Proof.
  destruct (proj1 (process_file_requests (env := Demo.env) Demo.processor0
                     "a.png" Demo.state0)) as (evs & Htr & Hproc & _).
  exists evs. split; [exact Htr | exact Hproc].
Defined.

(** The server answers the first file with the empty string. *)
Lemma empty_result_skipped_witness :
  let w := {| Demo.clock := 0; Demo.unreachable := [];
              Demo.speechless := ["a.png"]%string; Demo.readonly := [];
              Demo.disk_full := [] |} in
  let self := Demo.thread ["a.png"; "b.png"]%string in
  let s := Demo.start w in
  let s1 := snd (process_file (processor self) "a.png" s) in
  process_file (processor self) "a.png" s
  = (Ok (Some ""%string, "a.png"%string), s1) /\
  exists s2 evs,
    run_body self 0 "a.png" s = (Ok tt, s2) /\
    trace s2 = trace s ++ evs /\
    signals evs = [progress 1 2] /\
    results_of evs = [] /\
    file_ops evs = [] /\
    fs s2 = fs s.
Proof.
  intros w self s s1.
  assert (H : process_file (processor self) "a.png" s
              = (Ok (Some ""%string, "a.png"%string), s1)) by by_running.
  split; [exact H|].
  exact (empty_result_skipped self 0 "a.png" s s1 (Some ""%string) "a.png"
           H (or_introl eq_refl)).
Defined.

(** The scenario of the specification: two files, both captioned. *)
Example scenario_two_files :
  let s' := snd (run (Demo.thread ["a.png"; "b.png"]%string) Demo.state0) in
  signals (trace s')
  = [result_ready "caption of a.png"; progress 1 2;
     result_ready "caption of b.png"; progress 2 2; finished] /\
  file_ops (trace s') = ["a.txt"; "a.txt"; "b.txt"; "b.txt"]%string /\
  fs s' !! "a.txt"%string = Some "caption of a.png"%string /\
  fs s' !! "b.txt"%string = Some "caption of b.png"%string /\
  size (fs s') = 2%nat.
Proof. vm_compute. repeat split. Qed.

(** A name made of dots has no extension for [splitext], before and
    after ".txt" is put on it. *)
Example name_of_dots :
  splitext Posix "..." = ("..."%string, ""%string) /\
  has_name Posix "..." = false /\
  txt_output_path "..." = "....txt"%string /\
  splitext Posix "....txt" = ("....txt"%string, ""%string).
Proof. vm_compute. repeat split. Qed.

(** The superscript two passes [isdigit] and is refused by [int]. *)
Example superscript_digit :
  let t := String (ascii_of_nat 178) "" in
  Str.isdigit t = true /\
  exists e, parse_max_length t = Raised e /\ exc_class e = "ValueError"%string.
Proof. split; [reflexivity|]. eexists. split; reflexivity. Qed.

(** No file at all. *)
Lemma run_empty_witness :
  let self := Demo.thread [] in
  files self = [] /\
  trace (snd (run self Demo.state0)) = [Emit finished].
Proof.
  intros self. split; [reflexivity|].
  destruct (run_empty self Demo.state0 eq_refl) as (evs & self' & _ & Htr & -> & _).
  exact Htr.
Defined.

End Instances.
(** * The further properties at work in the scripted environment *)

Section MoreInstances.
Local Open Scope list_scope.

#[local] Existing Instance Demo.env.

Ltac by_running := vm_compute; reflexivity.

(** The image itself is not written to. *)
Lemma run_only_txt_witness :
  let self := Demo.thread ["a.png"; "b.png"]%string in
  ends_with ".txt" "a.png" = false /\
  fs (snd (run self Demo.state0)) !! "a.png"%string
  = fs Demo.state0 !! "a.png"%string.
Proof.
  intros self.
  assert (H : ends_with ".txt" "a.png" = false) by by_running.
  split; [exact H|].
  exact (proj2 (run_only_txt self Demo.state0) "a.png"%string H).
Defined.

(** The numeral of 512, and 7 with a zero in front. *)
Lemma parse_max_length_numeral_witness :
  exceeds_limit int_max_str_digits (String.length (str_nat 512)) = false /\
  parse_max_length "512" = Ok 512 /\
  parse_max_length "07" = parse_max_length "7".
Proof.
  destruct (parse_max_length_numeral 512) as (Hok & Hshort & _ & Hzero).
  assert (Hlim : exceeds_limit int_max_str_digits
                   (String.length (str_nat 512)) = false).
  { apply Hshort. left. change (3 <= 640)%nat. lia. }
  split; [exact Hlim|]. split; [exact (Hok Hlim)|].
  apply (Hzero "7"%string); [by_running | intros H; discriminate H
                            | by_running].
Defined.

(** A negative number is not a run of digits; 12 is one. *)
Lemma parse_max_length_ascii_witness :
  is_ascii "-5" = true /\ parse_max_length "-5" = Ok 256 /\
  is_ascii "12" = true /\ parse_max_length "12" = Ok 12.
Proof.
  assert (H5 : is_ascii "-5" = true) by by_running.
  assert (H12 : is_ascii "12" = true) by by_running.
  split; [exact H5|].
  split; [exact (proj1 (parse_max_length_ascii "-5" H5) eq_refl)|].
  split; [exact H12|].
  apply (proj1 (proj2 (parse_max_length_ascii "12" H12))); by_running.
Defined.

(** A superscript two in the limit field, and a server that cannot be
    reached. *)
Lemma process_files_raises_witness :
  let mw := Demo.window (String (ascii_of_nat 178) "") ["a.png"]%string in
  let down := {| Demo.clock := 0;
                 Demo.unreachable := ["http://localhost:5001"]%string;
                 Demo.speechless := []; Demo.readonly := [];
                 Demo.disk_full := [] |} in
  let disabled := [SetEnabled "process_button" false;
                   SetEnabled "file_button" false] in
  selected_files mw <> [] /\
  (exists e,
     parse_max_length (max_length_input_text mw) = Raised e /\
     process_files mw Demo.state0
     = (Raised e, with_trace Demo.state0 (world Demo.state0) disabled)) /\
  (exists s',
     process_files (Demo.window "256" ["a.png"]%string) (Demo.start down)
     = (Raised Demo.offline, s') /\
     trace s' = disabled).
Proof.
  intros mw down disabled.
  assert (Hsel : selected_files mw <> []) by (intros H; discriminate H).
  split; [exact Hsel|]. split.
  - eexists. split; [by_running|].
    apply (proj1 (proj2 (process_files_raises mw Demo.state0)) Hsel).
    by_running.
  - eexists. split.
    + apply (proj2 (proj2 (process_files_raises
                             (Demo.window "256" ["a.png"]%string)
                             (Demo.start down)))
               ltac:(intros H; discriminate H) 256 Demo.offline
               (Demo.tick down)); by_running.
    + reflexivity.
Defined.

(** photo.jpg, then photo.png. *)
Lemma same_base_overwrites_witness :
  let s1 := snd (save_result Demo.processor0 "a cat" "photo.jpg" Demo.state0) in
  let s2 := snd (save_result Demo.processor0 "a dog" "photo.png" s1) in
  has_name Posix "photo" = true /\
  plain_ext Posix "jpg" = true /\
  plain_ext Posix "png" = true /\
  fs s1 !! "photo.txt"%string = Some "a cat"%string /\
  fs s2 !! "photo.txt"%string = Some "a dog"%string.
Proof.
  intros s1 s2.
  assert (Hname : has_name (@os_path Demo.env) "photo" = true) by by_running.
  assert (H1 : plain_ext (@os_path Demo.env) "jpg" = true) by by_running.
  assert (H2 : plain_ext (@os_path Demo.env) "png" = true) by by_running.
  split; [exact Hname|]. split; [exact H1|]. split; [exact H2|].
  assert (Hs1 : save_result Demo.processor0 "a cat" "photo.jpg" Demo.state0
                = (Ok true, s1)) by by_running.
  assert (Hs2 : save_result Demo.processor0 "a dog" "photo.png" s1
                = (Ok true, s2)) by by_running.
  destruct (same_base_overwrites Demo.processor0 "photo" "jpg" "png"
              "a cat" "a dog" Demo.state0 s1 s2 Hname H1 H2 Hs1 Hs2)
    as (Ha & Hb & _).
  split; [exact Ha | exact Hb].
Defined.

(** A window whose worker is about to run on one file. *)
Lemma thread_round_recovers_witness :
  let w := DemoDesk.running ["a.png"]%string in
  thread w = Some (Demo.thread ["a.png"]%string) /\
  exists w' s',
    @thread_round Demo.env (DemoDesk.desktop []) w Demo.state0
    = (Ok tt, w', s') /\
    process_button w' = true /\ file_button w' = true /\
    progress_bar w' = 0 /\ form w' = form w.
Proof.
  intros w. split; [reflexivity|].
  destruct (thread_round_recovers (desk := DemoDesk.desktop []) w
              (Demo.thread ["a.png"]%string) Demo.state0 eq_refl)
    as (w' & s' & H & Hp & Hf & Hb & Hform & _).
  exists w', s'. auto.
Defined.

(** The dialog hands back two files. *)
Lemma select_files_effect_witness :
  let chosen := ["a.png"; "b.png"]%string in
  let w := DemoDesk.window0 [] in
  fst (@getOpenFileNames Demo.env (DemoDesk.desktop chosen)
         (world Demo.state0)) <> [] /\
  exists w1 s1,
    @select_files Demo.env (DemoDesk.desktop chosen) w Demo.state0
    = (Ok tt, w1, s1) /\
    selected_files (form w1) = chosen /\
    files_label w1 = "Selected 2 images"%string /\
    process_button w1 = true.
Proof.
  intros chosen w.
  assert (Hne : fst (@getOpenFileNames Demo.env (DemoDesk.desktop chosen)
                       (world Demo.state0)) <> [])
    by (intros H; discriminate H).
  split; [exact Hne|].
  destruct (proj2 (select_files_effect (desk := DemoDesk.desktop chosen) w
                     Demo.state0) Hne)
    as (w1 & H & Hsel & Hlabel & Hbutton & _).
  exists w1. eexists. split; [exact H|]. auto.
Defined.

End MoreInstances.
